(** * llm_chat_client_pyqt6: the conversation/session engine

    A shallow embedding of the non-GUI core of [llm_chat_client_pyqt6.py]:
    sampling settings, the conversation store, title derivation, the token
    estimate and the streaming worker.

    Python values are embedded as follows.
    - [str] is a sequence of Unicode code points, so [length] is Python's
      [len] and [take 40] is the slice [[:40]].
    - JSON-shaped data (what [json.load] returns and what the message list
      holds) is the type [value]; a [dict] keeps its items in insertion order.
    - A Python [float] is an IEEE binary64 number, embedded as the standard
      library's [spec_float].
    - Code that may raise returns [res]; [try ... except Exception] is
      [try_except].  Only [Exception] subclasses are modelled; the texts of
      the interpreter's own exceptions follow CPython 3.11. *)

From Stdlib Require Import ZArith NArith List Bool Lia String Ascii.
From Stdlib Require Import Floats.SpecFloat Floats.PrimFloat Floats.FloatOps.
From stdpp Require Import base option list gmap strings pretty sorting.

Local Open Scope Z_scope.
Set Warnings "-register-all".

(** ** Strings *)

Abbreviation str := (list N).

Definition lit (s : string) : str :=
  map N_of_ascii (list_ascii_of_string s).
Arguments lit : simpl never.

(** [repr] of a string without quotes or escapes in it, as [KeyError] prints
    its key. *)
Definition repr_plain (s : str) : str := lit "'" ++ s ++ lit "'".

(** ** Exceptions and results *)

Record exn := Exn { exn_type : str; exn_text : str }.

Inductive res (A : Type) :=
| Ok (a : A)
| Raise (e : exn).
Arguments Ok {A} a.
Arguments Raise {A} e.

Definition rbind {A B} (r : res A) (k : A -> res B) : res B :=
  match r with
  | Ok a => k a
  | Raise e => Raise e
  end.

Definition try_except {A} (body : res A) (handler : exn -> A) : A :=
  match body with
  | Ok a => a
  | Raise e => handler e
  end.

Declare Scope res_scope.
Delimit Scope res_scope with res.
Notation "x <- c1 ;; c2" := (rbind c1 (fun x => c2))
  (at level 100, c1 at next level, right associativity) : res_scope.

Fixpoint rmapM {A B} (f : A -> res B) (l : list A) : res (list B) :=
  match l with
  | [] => Ok []
  | x :: l' => (y <- f x ;; ys <- rmapM f l' ;; Ok (y :: ys))%res
  end.

(** ** JSON-shaped values *)

Inductive value :=
| VNone
| VBool (b : bool)
| VInt (z : Z)
| VFloat (f : spec_float)
| VStr (s : str)
| VList (l : list value)
| VDict (d : list (str * value)).

Definition type_name (v : value) : str :=
  match v with
  | VNone => lit "NoneType"
  | VBool _ => lit "bool"
  | VInt _ => lit "int"
  | VFloat _ => lit "float"
  | VStr _ => lit "str"
  | VList _ => lit "list"
  | VDict _ => lit "dict"
  end.

(** [v == s] for a string literal [s]. *)
Definition eq_str (v : value) (s : str) : bool :=
  match v with
  | VStr t => bool_decide (t = s)
  | _ => false
  end.

Fixpoint assoc (k : str) (d : list (str * value)) : option value :=
  match d with
  | [] => None
  | (k', v) :: d' => if bool_decide (k' = k) then Some v else assoc k d'
  end.

(** [m[k]] for a string key. *)
Definition subscript (m : value) (k : str) : res value :=
  match m with
  | VDict d =>
      match assoc k d with
      | Some v => Ok v
      | None => Raise (Exn (lit "KeyError") (repr_plain k))
      end
  | VStr _ =>
      Raise (Exn (lit "TypeError")
                 (lit "string indices must be integers, not 'str'"))
  | VList _ =>
      Raise (Exn (lit "TypeError")
                 (lit "list indices must be integers or slices, not str"))
  | _ =>
      Raise (Exn (lit "TypeError")
                 (lit "'" ++ type_name m ++ lit "' object is not subscriptable"))
  end.

(** [m.get(k, default)]. *)
Definition get (m : value) (k : str) (default : value) : res value :=
  match m with
  | VDict d => Ok (match assoc k d with Some v => v | None => default end)
  | _ =>
      Raise (Exn (lit "AttributeError")
                 (lit "'" ++ type_name m ++ lit "' object has no attribute 'get'"))
  end.

(** ** Floats *)

Definition F0 : spec_float := S754_zero false.                          (* 0.0 *)
Definition F1 : spec_float := S754_finite false 4503599627370496 (-52). (* 1.0 *)

(** [float(z)] for an [int]: round to nearest even, [OverflowError] when the
    rounded value does not fit binary64. *)
Definition float_of_int (z : Z) : res spec_float :=
  match binary_normalize 53 1024 z 0 false with
  | S754_infinity _ =>
      Raise (Exn (lit "OverflowError") (lit "int too large to convert to float"))
  | f => Ok f
  end.

(** [min(a, b)] and [max(a, b)] of two floats: the first argument is kept
    unless the second is strictly smaller (resp. greater). *)
Definition py_min (a b : spec_float) : spec_float := if SFltb b a then b else a.
Definition py_max (a b : spec_float) : spec_float := if SFltb a b then b else a.

(** ** Module state and constants *)

Definition MODEL : str := lit "claude-sonnet-4-20250514".

Definition DEFAULT_TEMPERATURE : value :=
  VFloat (S754_finite false 8106479329266893 (-53)).                    (* 0.9 *)
Definition DEFAULT_TOP_P : value := VNone.

Definition SYSTEM_PROMPT : str :=
  lit "You are a helpful AI assistant. Provide clear, concise, and accurate responses.".

(** The three sampling globals. *)
Record sampling := Sampling {
  current_temperature : value;
  current_top_p : value;
  current_sampling_mode : value
}.

Definition initial_sampling : sampling :=
  Sampling DEFAULT_TEMPERATURE DEFAULT_TOP_P (VStr (lit "temperature")).

(** A file as [open] and [json.load] see it: [Unparsable] stands for any
    content on which reading or parsing raises, [Json v] for text that parses
    to [v].  [json.dump v] writes [Json v]. *)
Inductive file :=
| Unparsable (e : exn)
| Json (v : value).

Definition json_load (f : file) : res value :=
  match f with
  | Unparsable e => Raise e
  | Json v => Ok v
  end.

(** ** Settings *)

(** [load_settings]: [settings_file] is [None] when [SETTINGS_FILE] does
    not exist.  The globals are passed in and returned. *)
Definition load_settings_body (f : file) : res sampling :=
  (settings <- json_load f ;;
   t <- get settings (lit "temperature") DEFAULT_TEMPERATURE ;;
   p <- get settings (lit "top_p") DEFAULT_TOP_P ;;
   m <- get settings (lit "sampling_mode") (VStr (lit "temperature")) ;;
   Ok (Sampling t p m))%res.

Definition load_settings (settings_file : option file) (g : sampling)
  : res sampling :=
  match settings_file with
  | Some f => Ok (try_except (load_settings_body f) (fun _ => g))
  | None => Ok g
  end.

Definition save_settings (g : sampling) : file :=
  Json (VDict [(lit "temperature", current_temperature g);
               (lit "top_p", current_top_p g);
               (lit "sampling_mode", current_sampling_mode g)]).

(** ** Sampling parameters *)

Section Sampling.

(** [float(s)] for a [str]: the parsed number, or [ValueError]. *)
Variable float_of_str : str -> res spec_float.

(** The builtin [float(x)]. *)
Definition py_float (x : value) : res spec_float :=
  match x with
  | VFloat f => Ok f
  | VInt z => float_of_int z
  | VBool b => Ok (if b then F1 else F0)
  | VStr s => float_of_str s
  | _ =>
      Raise (Exn (lit "TypeError")
                 (lit "float() argument must be a string or a real number, not '"
                  ++ type_name x ++ lit "'"))
  end.

Definition clamp (x : value) (lo hi : spec_float) : option spec_float :=
  try_except (f <- py_float x ;; Ok (Some (py_max lo (py_min hi f))))%res
             (fun _ => None).

Definition _sanitize_sampling (temperature top_p : value)
  : option spec_float * option spec_float :=
  let t := match temperature with VNone => None | _ => clamp temperature F0 F1 end in
  let p := match top_p with VNone => None | _ => clamp top_p F0 F1 end in
  let p := match t, p with Some _, Some _ => None | _, _ => p end in
  (t, p).

Definition _create_args (g : sampling) (model_name system : str)
    (convo : list value) : gmap str value :=
  let temp := if eq_str (current_sampling_mode g) (lit "temperature")
              then current_temperature g else VNone in
  let top_p_val := if eq_str (current_sampling_mode g) (lit "top_p")
                   then current_top_p g else VNone in
  let '(t, p) := _sanitize_sampling temp top_p_val in
  let kwargs : gmap str value :=
    <[lit "model" := VStr model_name]>
      (<[lit "system" := VStr system]>
         (<[lit "messages" := VList convo]>
            (<[lit "max_tokens" := VInt 4096]> ∅))) in
  match t, p with
  | Some t, _ => <[lit "temperature" := VFloat t]> kwargs
  | None, Some p => <[lit "top_p" := VFloat p]> kwargs
  | None, None => kwargs
  end.

End Sampling.

(** ** Conversation titles *)

(** [str.isspace] on one code point. *)
Definition is_space (c : N) : bool :=
  ((9 <=? c) && (c <=? 13) || (28 <=? c) && (c <=? 32)
   || (c =? 133) || (c =? 160) || (c =? 5760)
   || (8192 <=? c) && (c <=? 8202)
   || (c =? 8232) || (c =? 8233) || (c =? 8239) || (c =? 8287)
   || (c =? 12288))%N.

Fixpoint lstrip (s : str) : str :=
  match s with
  | c :: s' => if is_space c then lstrip s' else s
  | [] => []
  end.

Definition rstrip (s : str) : str := rev (lstrip (rev s)).

Definition strip (s : str) : str := rstrip (lstrip s).

Definition NEW_CHAT : str := lit "New Chat".

(** [content[:40].strip()] followed by the length test, for whatever value
    the [content] key holds; only a [str] gets through. *)
Definition title_of_content (content : value) : res str :=
  match content with
  | VStr c =>
      let title := strip (take 40 c) in
      let title := if (40 <? length c)%nat then title ++ lit "..." else title in
      Ok (match title with [] => NEW_CHAT | _ => title end)
  | VList _ =>
      Raise (Exn (lit "AttributeError")
                 (lit "'list' object has no attribute 'strip'"))
  | VDict _ =>
      Raise (Exn (lit "TypeError") (lit "unhashable type: 'slice'"))
  | _ =>
      Raise (Exn (lit "TypeError")
                 (lit "'" ++ type_name content ++ lit "' object is not subscriptable"))
  end.

Fixpoint get_conversation_title (msgs : list value) : res str :=
  match msgs with
  | [] => Ok NEW_CHAT
  | msg :: rest =>
      (role <- get msg (lit "role") VNone ;;
       if eq_str role (lit "user")
       then (content <- get msg (lit "content") (VStr []) ;;
             title_of_content content)
       else get_conversation_title rest)%res
  end.

(** ** Conversation store *)

(** [CONVERSATIONS_DIR]: file name to file.  Every name is taken to be one
    the operating system accepts for a file directly in the directory. *)
Abbreviation store := (gmap str file).

(** [f"{conv_id}.json"]; an absent id is formatted as [None]. *)
Definition filename (conv_id : option str) : str :=
  match conv_id with
  | Some s => s ++ lit ".json"
  | None => lit "None.json"
  end.

(** [not conv_id]. *)
Definition falsy (conv_id : option str) : bool :=
  match conv_id with
  | None | Some [] => true
  | Some _ => false
  end.

Definition record (conv_id : str) (title : value) (msgs : list value)
    (timestamp : str) : value :=
  VDict [(lit "id", VStr conv_id);
         (lit "title", title);
         (lit "messages", VList msgs);
         (lit "timestamp", VStr timestamp)].

(** [save_conversation]; [now] is [datetime.now().isoformat()] at the time
    of the call.  [None] and the empty string are the ids for which
    [not conv_id] holds. *)
Definition save_conversation (now : str) (conv_id : option str)
    (title : value) (msgs : list value) (fs : store) : store :=
  match conv_id with
  | Some (c :: cs) =>
      <[filename conv_id := Json (record (c :: cs) title msgs now)]> fs
  | _ => fs
  end.

(** [load_conversation]; Python's [None] is [VNone]. *)
Definition load_conversation (conv_id : option str) (fs : store) : res value :=
  match fs !! filename conv_id with
  | None => Ok VNone
  | Some f => json_load f
  end.

Definition delete_conversation (conv_id : option str) (fs : store) : store :=
  delete (filename conv_id) fs.

(** Python's [<] on two strings: lexicographic on code points. *)
Fixpoint str_ltb (a b : str) : bool :=
  match a, b with
  | _, [] => false
  | [], _ :: _ => true
  | x :: a', y :: b' => (x <? y)%N || (x =? y)%N && str_ltb a' b'
  end.

Definition has_suffix (suffix s : str) : bool :=
  bool_decide (drop (length s - length suffix) s = suffix).

(** [CONVERSATIONS_DIR.glob("*.json")]: the order is the operating system's;
    the model takes the map's enumeration and nothing is assumed about it. *)
Definition glob_json (fs : store) : list (str * file) :=
  filter (fun nf => has_suffix (lit ".json") nf.1 = true) (map_to_list fs).

(** The loop of [list_conversations]: a file that cannot be read or parsed
    is skipped. *)
Fixpoint read_all (files : list (str * file)) : list value :=
  match files with
  | [] => []
  | (_, f) :: rest =>
      try_except (data <- json_load f ;; Ok (data :: read_all rest))%res
                 (fun _ => read_all rest)
  end.

(** The keys when every one of them is a [str]. *)
Fixpoint all_str (keys : list value) : option (list str) :=
  match keys with
  | [] => Some []
  | VStr s :: keys' => option_map (cons s) (all_str keys')
  | _ :: _ => None
  end.

(** [list.sort(key=..., reverse=True)] on string keys: the stable sort into
    descending order, elements with equal keys keeping their order. *)
Fixpoint insert_desc (kx : str * value) (l : list (str * value))
  : list (str * value) :=
  match l with
  | [] => [kx]
  | ky :: l' =>
      if str_ltb kx.1 ky.1 then ky :: insert_desc kx l' else kx :: ky :: l'
  end.

Definition sort_desc (l : list (str * value)) : list (str * value) :=
  foldr insert_desc [] l.

Section Listing.

(** [list.sort] when some key is not a [str] (numbers, mixed types): the
    outcome depends on CPython's comparison of such keys and is left open. *)
Variable sort_other : list (value * value) -> res (list value).

Definition sort_by_timestamp (conversations : list value) : res (list value) :=
  (keys <- rmapM (fun x => get x (lit "timestamp") (VStr [])) conversations ;;
   match all_str keys with
   | Some ks => Ok (map snd (sort_desc (zip ks conversations)))
   | None => sort_other (zip keys conversations)
   end)%res.

Definition list_conversations (fs : store) : res (list value) :=
  sort_by_timestamp (read_all (glob_json fs)).

End Listing.

(** ** Token estimate *)

Section Tokens.

(** Whether [import tiktoken] succeeded, and what
    [tiktoken.get_encoding("cl100k_base").encode(text)] does. *)
Variable TIKTOKEN_AVAILABLE : bool.
Variable tiktoken_encode : str -> res (list N).

Definition estimate_tokens (text : str) : nat :=
  let fallback := (length text / 4)%nat in
  if TIKTOKEN_AVAILABLE
  then try_except (toks <- tiktoken_encode text ;; Ok (length toks))%res
                  (fun _ => fallback)
  else fallback.



End Tokens.

(** ** Session state and auto-save *)

Record session := Session {
  current_conversation_id : option str;
  current_conversation_title : value;
  messages : list value
}.

(** [auto_save_current_conversation] up to the call of [save_conversation];
    [uuid] is what [generate_conversation_id] returns when called. *)
Definition auto_save_current_conversation (now uuid : str)
    (s : session) (fs : store) : res (session * store) :=
  let conv_id := if falsy (current_conversation_id s) then Some uuid
                 else current_conversation_id s in
  (title <- (if eq_str (current_conversation_title s) NEW_CHAT
             then (t <- get_conversation_title (messages s) ;; Ok (VStr t))
             else Ok (current_conversation_title s)) ;;
   Ok (Session conv_id title (messages s),
       save_conversation now conv_id title (messages s) fs))%res.

(** ** Streaming worker *)

(** What [client.messages.stream] yields: text deltas, then the
    end of the stream or an exception (raised on opening, between deltas or
    on closing). *)
Inductive stream :=
| EndOfStream
| Delta (text : str) (rest : stream)
| Fail (e : exn).

(** The three signals of [StreamSignals]. *)
Inductive event :=
| text_chunk (text : str)
| finished (text : str)
| error (text : str).

(** What [run] can change: the shared message list and the signals emitted
    so far, oldest first. *)
Record worker := Worker {
  messages_list : list value;
  signals : list event
}.

(** State and exceptions: an exception leaves the state as it was when it
    was raised. *)
Definition W (A : Type) : Type := worker -> res A * worker.

Definition wret {A} (a : A) : W A := fun w => (Ok a, w).

Definition wbind {A B} (m : W A) (k : A -> W B) : W B :=
  fun w => match m w with
           | (Ok a, w') => k a w'
           | (Raise e, w') => (Raise e, w')
           end.

Definition wlift {A} (r : res A) : W A := fun w => (r, w).

Definition wtry (body : W unit) (handler : exn -> W unit) : W unit :=
  fun w => match body w with
           | (Ok tt, w') => (Ok tt, w')
           | (Raise e, w') => handler e w'
           end.

Declare Scope worker_scope.
Delimit Scope worker_scope with W.
Notation "x <- c1 ;; c2" := (wbind c1 (fun x => c2))
  (at level 100, c1 at next level, right associativity) : worker_scope.
Notation "c1 ;;; c2" := (wbind c1 (fun _ => c2))
  (at level 100, right associativity) : worker_scope.

Definition append_message (m : value) : W unit :=
  fun w => (Ok tt, Worker (messages_list w ++ [m]) (signals w)).

Definition emit (e : event) : W unit :=
  fun w => (Ok tt, Worker (messages_list w) (signals w ++ [e])).

Definition read_messages : W (list value) :=
  fun w => (Ok (messages_list w), w).

Definition message (role content : str) : value :=
  VDict [(lit "role", VStr role); (lit "content", VStr content)].

(** [[m["content"] for m in msgs if m["role"] == "system"]]. *)
Fixpoint system_contents (msgs : list value) : res (list value) :=
  match msgs with
  | [] => Ok []
  | m :: rest =>
      (role <- subscript m (lit "role") ;;
       if eq_str role (lit "system")
       then (c <- subscript m (lit "content") ;;
             cs <- system_contents rest ;; Ok (c :: cs))
       else system_contents rest)%res
  end.

Definition NL : str := [10%N].                                 (* "\n" *)

(** [sep.join(items)], [i] being the index of the first item. *)
Fixpoint join_from (i : nat) (sep : str) (items : list value) : res str :=
  match items with
  | [] => Ok []
  | VStr s :: rest =>
      (tl <- join_from (S i) sep rest ;;
       Ok (match rest with [] => s | _ => s ++ sep ++ tl end))%res
  | v :: _ =>
      Raise (Exn (lit "TypeError")
                 (lit "sequence item " ++ lit (pretty i)
                  ++ lit ": expected str instance, " ++ type_name v
                  ++ lit " found"))
  end.

Definition py_join (sep : str) (items : list value) : res str :=
  join_from 0 sep items.

(** [[m for m in msgs if m["role"] in ("user", "assistant")]]. *)
Fixpoint transcript (msgs : list value) : res (list value) :=
  match msgs with
  | [] => Ok []
  | m :: rest =>
      (role <- subscript m (lit "role") ;;
       ms <- transcript rest ;;
       Ok (if eq_str role (lit "user") || eq_str role (lit "assistant")
           then m :: ms else ms))%res
  end.

(** The [for text in stream.text_stream] loop with its accumulator. *)
Fixpoint consume (s : stream) (out : str) : W str :=
  match s with
  | EndOfStream => wret out
  | Delta text rest => (emit (text_chunk text) ;;; consume rest (out ++ text))%W
  | Fail e => wlift (Raise e)
  end.

Definition EMPTY_RESPONSE : str := lit "(Empty response)".

Definition error_msg (e : exn) : str :=
  lit "(API error: " ++ exn_type e ++ lit ": " ++ exn_text e ++ lit ")".

Section Worker.

Variable float_of_str : str -> res spec_float.
(** [client.messages.stream]. *)
Variable client : gmap str value -> stream.
Variable g : sampling.

Definition run_body (user_text : str) : W unit :=
  (append_message (message (lit "user") user_text) ;;;
   msgs <- read_messages ;;
   joined <- wlift (cs <- system_contents msgs ;; py_join NL cs)%res ;;
   let system := match joined with [] => SYSTEM_PROMPT | _ => joined end in
   convo <- wlift (transcript msgs) ;;
   let kwargs := _create_args float_of_str g MODEL system convo in
   out <- consume (client kwargs) [] ;;
   let out := match out with [] => EMPTY_RESPONSE | _ => out end in
   append_message (message (lit "assistant") out) ;;;
   emit (finished out))%W.

Definition run_handler (e : exn) : W unit :=
  (append_message (message (lit "assistant") (error_msg e)) ;;;
   emit (error (error_msg e)))%W.

(** [StreamWorker.run]. *)
Definition run (user_text : str) : W unit :=
  wtry (run_body user_text) run_handler.

End Worker.

(** ** Vocabulary of the statements *)

(** [0.0 <= r <= 1.0]. *)
Definition in_unit (r : spec_float) : Prop :=
  SFleb F0 r = true /\ SFleb r F1 = true.

(** An input is numeric when it is not [None] and [float] accepts it. *)
Definition numeric (float_of_str : str -> res spec_float) (x : value) : bool :=
  match x with
  | VNone => false
  | _ => match py_float float_of_str x with Ok _ => true | Raise _ => false end
  end.

Definition clamped (f : spec_float) : spec_float := py_max F0 (py_min F1 f).

(** A [float] that accepts no string at all. *)
Definition float_of_str_none (s : str) : res spec_float :=
  Raise (Exn (lit "ValueError") (lit "could not convert string to float")).

Definition F1_5 : spec_float := S754_finite false 6755399441055744 (-52). (* 1.5 *)
Definition F0_5 : spec_float := S754_finite false 4503599627370496 (-53). (* 0.5 *)

(** The settings file is missing, or reading and parsing it raises. *)
Definition missing_or_unparsable (settings_file : option file) : bool :=
  match settings_file with
  | None | Some (Unparsable _) => true
  | Some (Json _) => false
  end.

(** [msg] is a dict whose role is not ["user"]. *)
Definition not_user (msg : value) : Prop :=
  exists role, get msg (lit "role") VNone = Ok role
               /\ eq_str role (lit "user") = false.

(** [msg] is a dict with role ["user"] whose content is the string [c]
    (the empty string when the key is absent). *)
Definition user_says (msg : value) (c : str) : Prop :=
  exists role, get msg (lit "role") VNone = Ok role
               /\ eq_str role (lit "user") = true
               /\ get msg (lit "content") (VStr []) = Ok (VStr c).

(** The title as the code derives it from the content [c] of the first user
    message. *)
Definition derived_title (c : str) : str :=
  let t := strip (take 40 c) ++ (if (40 <? length c)%nat then lit "..." else []) in
  match t with [] => NEW_CHAT | _ => t end.

(** The title as the specification words it: the first 40 characters,
    trimmed, followed by the one-character ellipsis when the content is longer. *)
Definition ELLIPSIS : str := [8230%N].

Definition specified_title (c : str) : str :=
  strip (take 40 c) ++ (if (40 <? length c)%nat then ELLIPSIS else []).

(** A value that [list_conversations] can sort: an object whose
    [timestamp], when it has one, is a string. *)
Definition conversation_like (v : value) : bool :=
  match v with
  | VDict d =>
      match assoc (lit "timestamp") d with
      | None | Some (VStr _) => true
      | Some _ => false
      end
  | _ => false
  end.

(** The sort key of such a value. *)
Definition timestamp_of (v : value) : str :=
  match v with
  | VDict d =>
      match assoc (lit "timestamp") d with
      | Some (VStr s) => s
      | _ => []
      end
  | _ => []
  end.

(** [a] may stand before [b] in a listing, most recent first. *)
Definition not_older (a b : value) : Prop :=
  str_ltb (timestamp_of a) (timestamp_of b) = false.

(** What a [*.json] file of the directory contributes to a listing. *)
Definition readable (nf : str * file) : option value :=
  match nf.2 with
  | Json v => if has_suffix (lit ".json") nf.1 then Some v else None
  | Unparsable _ => None
  end.

Definition readable_records (fs : store) : list value :=
  omap readable (map_to_list fs).

(** The deltas a stream yields, in order, and the exception it ends
    with, if any. *)
Fixpoint deltas (s : stream) : list str :=
  match s with
  | Delta text rest => text :: deltas rest
  | EndOfStream | Fail _ => []
  end.

Fixpoint failure (s : stream) : option exn :=
  match s with
  | Delta _ rest => failure rest
  | EndOfStream => None
  | Fail e => Some e
  end.

(** The kwargs [run] builds from the message list it finds after it has
    appended the user message (steps 3 and 4 of the turn). *)
Definition request (float_of_str : str -> res spec_float) (g : sampling)
    (msgs : list value) : res (gmap str value) :=
  (cs <- system_contents msgs ;;
   joined <- py_join NL cs ;;
   convo <- transcript msgs ;;
   Ok (_create_args float_of_str g MODEL
         (match joined with [] => SYSTEM_PROMPT | _ => joined end) convo))%res.

(** One turn seen from outside: the chunks relayed and how the [try] block
    ended, with the accumulated text or with the exception. *)
Definition turn (float_of_str : str -> res spec_float)
    (client : gmap str value -> stream) (g : sampling) (msgs : list value)
  : list str * res str :=
  match request float_of_str g msgs with
  | Raise e => ([], Raise e)
  | Ok kwargs =>
      (deltas (client kwargs),
       match failure (client kwargs) with
       | Some e => Raise e
       | None => Ok (concat (deltas (client kwargs)))
       end)
  end.

(** The content of the assistant message a turn ends with, and its terminal
    signal. *)
Definition reply (r : res str) : str :=
  match r with
  | Ok [] => EMPTY_RESPONSE
  | Ok out => out
  | Raise e => error_msg e
  end.

Definition terminal (r : res str) : event :=
  match r with
  | Ok _ => finished (reply r)
  | Raise _ => error (reply r)
  end.

Definition is_terminal (e : event) : bool :=
  match e with
  | text_chunk _ => false
  | finished _ | error _ => true
  end.

(** A stand-in for [cl100k_base] on the sample texts below: one token per
    space-led piece of the text (the token ids do not matter here), and, as
    [encode] does by default, [ValueError] on a text that spells a special
    token. *)
Fixpoint starts_with (p s : str) : bool :=
  match p, s with
  | [], _ => true
  | _ :: _, [] => false
  | x :: p', y :: s' => (x =? y)%N && starts_with p' s'
  end.

Fixpoint contains (p s : str) : bool :=
  starts_with p s
  || match s with
     | [] => false
     | _ :: s' => contains p s'
     end.



(** ** Further methods of the client *)


(** [iter(v)]: the items a [for] loop over [v] visits. *)
Definition iterate (v : value) : res (list value) :=
  match v with
  | VList l => Ok l
  | VStr s => Ok (map (fun c => VStr [c]) s)
  | VDict d => Ok (map (fun kv => VStr kv.1) d)
  | _ =>
      Raise (Exn (lit "TypeError")
                 (lit "'" ++ type_name v ++ lit "' object is not iterable"))
  end.

(** [LLMChatClient.start_new_chat] and the initialisation in [__init__]:
    the three conversation globals; [uuid] is the fresh id. *)
Definition start_new_chat (uuid : str) : session :=
  Session (Some uuid) (VStr NEW_CHAT) [message (lit "system") SYSTEM_PROMPT].

(** [LLMChatClient.send_message]: the input is stripped, a blank input
    returns at once, otherwise the worker is started on the shared message
    list.  The input widgets are disabled until the terminal signal, so the
    worker's [run] is composed here as one step. *)
Definition send_message (float_of_str : str -> res spec_float)
    (client : gmap str value -> stream) (g : sampling)
    (input_text : str) : W unit :=
  let text := strip input_text in
  match text with
  | [] => wret tt
  | _ => run float_of_str client g text
  end.

Section Counter.

Variable TIKTOKEN_AVAILABLE : bool.
Variable tiktoken_encode : str -> res (list N).
(** [estimate_tokens] on a content that is not a [str]: what tiktoken does
    with it is left open. *)
Variable estimate_other : value -> res nat.

(** The loop of [update_token_counter]. *)
Fixpoint total_tokens (msgs : list value) : res nat :=
  match msgs with
  | [] => Ok 0%nat
  | msg :: rest =>
      (role <- get msg (lit "role") VNone ;;
       n <- (if eq_str role (lit "user") || eq_str role (lit "assistant")
             then (content <- get msg (lit "content") (VStr []) ;;
                   match content with
                   | VStr text =>
                       Ok (estimate_tokens TIKTOKEN_AVAILABLE tiktoken_encode text)
                   | _ => estimate_other content
                   end)
             else Ok 0%nat) ;;
       total <- total_tokens rest ;;
       Ok (n + total)%nat)%res
  end.

(** [update_token_counter]: the text of the token label. *)
Definition update_token_counter (msgs : list value) : res str :=
  (total <- total_tokens msgs ;; Ok (lit "Tokens: ~" ++ lit (pretty total)))%res.

End Counter.

Section Search.

(** [str.lower]. *)
Variable lower : str -> str.

Definition py_lower (v : value) : res str :=
  match v with
  | VStr s => Ok (lower s)
  | _ =>
      Raise (Exn (lit "AttributeError")
                 (lit "'" ++ type_name v ++ lit "' object has no attribute 'lower'"))
  end.

(** [any(search_query in msg.get("content", "").lower() for msg in items)]:
    the items after the first match are not looked at. *)
Fixpoint any_content_matches (search_query : str) (items : list value)
  : res bool :=
  match items with
  | [] => Ok false
  | msg :: rest =>
      (content <- get msg (lit "content") (VStr []) ;;
       lowered <- py_lower content ;;
       if contains search_query lowered then Ok true
       else any_content_matches search_query rest)%res
  end.

(** The condition of the list comprehension for one conversation [c]. *)
Definition matches (search_query : str) (c : value) : res bool :=
  (title <- get c (lit "title") (VStr []) ;;
   lowered <- py_lower title ;;
   if contains search_query lowered then Ok true
   else (msgs <- get c (lit "messages") (VList []) ;;
         items <- iterate msgs ;;
         any_content_matches search_query items))%res.

Fixpoint filter_conversations (search_query : str) (conversations : list value)
  : res (list value) :=
  match conversations with
  | [] => Ok []
  | c :: rest =>
      (keep <- matches search_query c ;;
       kept <- filter_conversations search_query rest ;;
       Ok (if keep then c :: kept else kept))%res
  end.

(** The filter of [refresh_conversation_list]; [entry_text] is the text of
    the search box. *)
Definition search (entry_text : str) (conversations : list value)
  : res (list value) :=
  let search_query := lower (strip entry_text) in
  match search_query with
  | [] => Ok conversations
  | _ => filter_conversations search_query conversations
  end.

Variable sort_other : list (value * value) -> res (list value).

(** [refresh_conversation_list] up to the conversations it shows. *)
Definition refresh_conversation_list (entry_text : str) (fs : store)
  : res (list value) :=
  (conversations <- list_conversations sort_other fs ;;
   search entry_text conversations)%res.

End Search.

(** [load_conversation_to_chat] up to the end of its display loop: the
    three globals it leaves and whether it raised.  A [messages] value that
    is not a list cannot be held by [session]; what follows then is left
    open. *)
Section LoadToChat.

Variable other_messages : value -> res unit * session.


End LoadToChat.

(** [self.temp_slider.value() / 100]: the true division of a slider
    position, an [int] that converts to [float] exactly, by 100. *)
Definition F100 : spec_float := S754_finite false 7036874417766400 (-46). (* 100.0 *)

Definition slider_fraction (v : Z) : spec_float :=
  SFdiv 53 1024 (binary_normalize 53 1024 v 0 false) F100.

(** [SettingsDialog.apply_settings]: the globals it sets; it then calls
    [save_settings]. *)
Definition apply_settings (temp_checked : bool) (temp_slider top_p_slider : Z)
  : sampling :=
  Sampling (VFloat (slider_fraction temp_slider))
           (VFloat (slider_fraction top_p_slider))
           (VStr (if temp_checked then lit "temperature" else lit "top_p")).

Section Exporting.

(** [str(v)] for a value that is not itself a [str], as an f-string
    inserts it. *)
Variable format_other : value -> str.

Definition format_value (v : value) : str :=
  match v with
  | VStr s => s
  | _ => format_other v
  end.

Definition USER_HEADING : str := lit "## " ++ [129489%N] ++ lit " User".
Definition ASSISTANT_HEADING : str := lit "## " ++ [129302%N] ++ lit " Assistant".

(** The loop over the messages; [written] is what the file holds so far,
    and is what it is left with when a message makes the loop raise. *)
Fixpoint write_messages (items : list value) (written : str) : res unit * str :=
  match items with
  | [] => (Ok tt, written)
  | msg :: rest =>
      match (role <- get msg (lit "role") VNone ;;
             content <- get msg (lit "content") (VStr []) ;;
             Ok (role, content))%res with
      | Raise e => (Raise e, written)
      | Ok (role, content) =>
          if eq_str role (lit "user") then
            write_messages rest
              (written ++ USER_HEADING ++ NL ++ NL
               ++ format_value content ++ NL ++ NL)
          else if eq_str role (lit "assistant") then
            write_messages rest
              (written ++ ASSISTANT_HEADING ++ NL ++ NL
               ++ format_value content ++ NL ++ NL)
          else write_messages rest written
      end
  end.

(** The [try] block of [export_conversation] once the target file is
    open: what is written and whether an exception reached the handler.
    [now] is [datetime.now().strftime('%Y-%m-%d %H:%M')]. *)
Definition export_conversation (now : str) (conv_data : value)
  : res unit * str :=
  match get conv_data (lit "title") (VStr (lit "Conversation")) with
  | Raise e => (Raise e, [])
  | Ok title =>
      let header :=
        lit "# " ++ format_value title ++ NL ++ NL
        ++ lit "*Exported from LLM Chat Client on " ++ now ++ lit "*" ++ NL ++ NL
        ++ lit "---" ++ NL ++ NL in
      match (msgs <- get conv_data (lit "messages") (VList []) ;;
             iterate msgs)%res with
      | Raise e => (Raise e, header)
      | Ok items => write_messages items header
      end
  end.

End Exporting.

(** ** Vocabulary of the further properties *)

(** Every [*.json] file that parses holds a value [list_conversations] can
    sort. *)
Definition well_formed_store (fs : store) : Prop :=
  forall name v,
    has_suffix (lit ".json") name = true ->
    fs !! name = Some (Json v) -> conversation_like v = true.

(** Two floats are the same datum. *)
Definition same_float (a b : spec_float) : bool :=
  match a, b with
  | S754_zero s, S754_zero s' => Bool.eqb s s'
  | S754_infinity s, S754_infinity s' => Bool.eqb s s'
  | S754_nan, S754_nan => true
  | S754_finite s m e, S754_finite s' m' e' =>
      Bool.eqb s s' && (m =? m')%positive && (e =? e')
  | _, _ => false
  end.

(** A message list as the client builds it: each entry made by
    [message] from a role and a text. *)
Definition chat (l : list (str * str)) : list value :=
  map (fun rc => message rc.1 rc.2) l.

(** The entries that are sent as [messages], and the texts that make up the
    system prompt. *)
Definition sent (l : list (str * str)) : list (str * str) :=
  List.filter (fun rc => bool_decide (rc.1 = lit "user")
                         || bool_decide (rc.1 = lit "assistant")) l.

Definition system_texts (l : list (str * str)) : list str :=
  map snd (List.filter (fun rc => bool_decide (rc.1 = lit "system")) l).

(** [sep.join] on strings. *)
Fixpoint join_str (sep : str) (l : list str) : str :=
  match l with
  | [] => []
  | [s] => s
  | s :: rest => s ++ sep ++ join_str sep rest
  end.

(** Several turns one after the other, each started when the one before
    has emitted its terminal signal. *)
Fixpoint turns (float_of_str : str -> res spec_float)
    (client : gmap str value -> stream) (g : sampling)
    (texts : list str) (w : worker) : worker :=
  match texts with
  | [] => w
  | text :: rest =>
      turns float_of_str client g rest (run float_of_str client g text w).2
  end.

(** The user and assistant entries that a list of texts and replies adds. *)
Fixpoint exchanges (texts replies : list str) : list (str * str) :=
  match texts, replies with
  | text :: texts', r :: replies' =>
      (lit "user", text) :: (lit "assistant", r) :: exchanges texts' replies'
  | _, _ => []
  end.

(** The system prompt a request carries for the entries [l]. *)
Definition system_of (l : list (str * str)) : str :=
  let joined := join_str NL (system_texts l) in
  match joined with [] => SYSTEM_PROMPT | _ => joined end.

(** What the export writes for one user or assistant entry, and its
    header for a title that is a string. *)
Definition export_section (rc : str * str) : str :=
  (if bool_decide (rc.1 = lit "user") then USER_HEADING else ASSISTANT_HEADING)
  ++ NL ++ NL ++ rc.2 ++ NL ++ NL.

Definition export_header (title now : str) : str :=
  lit "# " ++ title ++ NL ++ NL
  ++ lit "*Exported from LLM Chat Client on " ++ now ++ lit "*" ++ NL ++ NL
  ++ lit "---" ++ NL ++ NL.

(** The conversations a non-blank query keeps. *)
Definition kept (lower : str -> str) (search_query : str) (c : value) : bool :=
  match matches lower search_query c with
  | Ok true => true
  | _ => false
  end.

(** * Theorems *)

Ltac split_all := repeat match goal with |- _ /\ _ => split end.

Ltac lit_neq :=
  let H := fresh in intros H; vm_compute in H; discriminate H.

(** ** Sampling *)

(** The float constants are the binary64 values of the literals in the
    source. *)
Example float_constants :
  DEFAULT_TEMPERATURE = VFloat (Prim2SF 0x1.ccccccccccccdp-1%float)
  /\ F0 = Prim2SF 0%float /\ F1 = Prim2SF 1%float
  /\ F1_5 = Prim2SF 1.5%float /\ F0_5 = Prim2SF 0.5%float.
Proof. vm_compute. repeat split. Qed.

Section SamplingFacts.

Variable float_of_str : str -> res spec_float.

Lemma SFltb_SFleb a b : SFltb a b = true -> SFleb a b = true.
Proof.
  unfold SFltb, SFleb. destruct (SFcompare a b) as [[]|]; congruence.
Qed.

Lemma clamped_in_unit f : in_unit (clamped f).
Proof.
  unfold in_unit, clamped, py_max, py_min.
  destruct (SFltb f F1) eqn:Hhi.
  - destruct (SFltb F0 f) eqn:Hlo.
    + split; now apply SFltb_SFleb.
    + split; reflexivity.
  - change (SFltb F0 F1) with true. cbn iota. split; reflexivity.
Qed.

Lemma clamp_numeric x :
  numeric float_of_str x = true ->
  exists f, py_float float_of_str x = Ok f
            /\ clamp float_of_str x F0 F1 = Some (clamped f).
Proof.
  unfold numeric, clamp. intros H.
  destruct (py_float float_of_str x) as [f|e] eqn:E.
  - exists f. split; reflexivity.
  - destruct x; discriminate H.
Qed.

Lemma clamp_not_numeric x :
  x <> VNone -> numeric float_of_str x = false ->
  clamp float_of_str x F0 F1 = None.
Proof.
  unfold numeric, clamp. intros Hx H.
  destruct (py_float float_of_str x) as [f|e] eqn:E; [|reflexivity].
  destruct x; try discriminate H. congruence.
Qed.

(** What the first two lines of [_sanitize_sampling] compute for one
    argument. *)
Lemma guarded_clamp x :
  match x with VNone => None | _ => clamp float_of_str x F0 F1 end
  = if numeric float_of_str x
    then option_map clamped
           (match py_float float_of_str x with Ok f => Some f | Raise _ => None end)
    else None.
Proof.
  destruct (numeric float_of_str x) eqn:N.
  - destruct (clamp_numeric x N) as (f & Hf & Hc). rewrite Hf. cbn.
    destruct x; first [exact Hc | discriminate N].
  - destruct x; try reflexivity; apply clamp_not_numeric; congruence.
Qed.

Lemma sanitize_cases t p :
  _sanitize_sampling float_of_str t p =
  match numeric float_of_str t, numeric float_of_str p with
  | true, _ =>
      (option_map clamped
         (match py_float float_of_str t with Ok f => Some f | Raise _ => None end),
       None)
  | false, true =>
      (None,
       option_map clamped
         (match py_float float_of_str p with Ok f => Some f | Raise _ => None end))
  | false, false => (None, None)
  end.
Proof.
  unfold _sanitize_sampling. rewrite !guarded_clamp.
  destruct (numeric float_of_str t) eqn:Nt.
  - destruct (clamp_numeric t Nt) as (f & -> & _). cbn.
    destruct (numeric float_of_str p) eqn:Np; [|reflexivity].
    destruct (clamp_numeric p Np) as (f' & -> & _). reflexivity.
  - destruct (numeric float_of_str p); reflexivity.
Qed.

Lemma float_is_numeric f : numeric float_of_str (VFloat f) = true.
Proof. reflexivity. Qed.

Lemma create_args_keys g model_name system convo :
  let kwargs := _create_args float_of_str g model_name system convo in
  kwargs !! lit "max_tokens" = Some (VInt 4096)
  /\ kwargs !! lit "model" = Some (VStr model_name)
  /\ kwargs !! lit "system" = Some (VStr system)
  /\ kwargs !! lit "messages" = Some (VList convo)
  /\ ~ (is_Some (kwargs !! lit "temperature")
        /\ is_Some (kwargs !! lit "top_p")).
Proof.
  unfold _create_args.
  destruct (_sanitize_sampling _ _ _) as [[t|] [p|]]; cbn zeta;
    repeat split;
    repeat (first [ rewrite lookup_insert_eq
                  | rewrite lookup_insert_ne by lit_neq
                  | rewrite lookup_empty ]);
    try reflexivity;
    intros [[? Ht] [? Hp]];
    repeat (first [ rewrite lookup_insert_ne in Ht by lit_neq
                  | rewrite lookup_insert_ne in Hp by lit_neq
                  | rewrite lookup_empty in Ht
                  | rewrite lookup_empty in Hp ]);
    congruence.
Qed.

(** C4.  [_sanitize_sampling] clamps every numeric input into [0,1] and
    maps an input that is [None] or that [float] rejects to [None]; when
    both inputs are numeric the temperature survives and [top_p] is
    dropped; [_sanitize_sampling(1.5, 0.5)] is [(1.0, None)]; and the
    kwargs of [_create_args] hold [max_tokens = 4096] and never both
    [temperature] and [top_p]. *)
Theorem sanitize_sampling_one_parameter :
  (forall t p,
      let t' := (_sanitize_sampling float_of_str t p).1 in
      let p' := (_sanitize_sampling float_of_str t p).2 in
      (forall r, t' = Some r -> in_unit r)
      /\ (forall r, p' = Some r -> in_unit r)
      /\ (numeric float_of_str t = true ->
          exists f, py_float float_of_str t = Ok f /\ t' = Some (clamped f))
      /\ (numeric float_of_str t = false -> t' = None)
      /\ (numeric float_of_str p = false -> p' = None)
      /\ (numeric float_of_str t = false -> numeric float_of_str p = true ->
          exists f, py_float float_of_str p = Ok f /\ p' = Some (clamped f))
      /\ (numeric float_of_str t = true -> numeric float_of_str p = true ->
          is_Some t' /\ p' = None))
  /\ (forall f, numeric float_of_str (VFloat f) = true)
  /\ _sanitize_sampling float_of_str (VFloat F1_5) (VFloat F0_5)
     = (Some F1, None)
  /\ (forall g model_name system convo,
         let kwargs := _create_args float_of_str g model_name system convo in
         kwargs !! lit "max_tokens" = Some (VInt 4096)
         /\ ~ (is_Some (kwargs !! lit "temperature")
               /\ is_Some (kwargs !! lit "top_p"))).
Proof.
  split; [|split; [|split]].
  - intros t p. cbn zeta. rewrite sanitize_cases.
    destruct (numeric float_of_str t) eqn:Nt.
    + destruct (clamp_numeric t Nt) as (f & Hf & _). rewrite Hf. cbn.
      split_all; try discriminate; try congruence; eauto.
      intros r [= <-]. apply clamped_in_unit.
    + destruct (numeric float_of_str p) eqn:Np; cbn.
      * destruct (clamp_numeric p Np) as (f & Hf & _). rewrite Hf. cbn.
        split_all; try discriminate; try congruence; eauto.
        intros r [= <-]. apply clamped_in_unit.
      * split_all; try discriminate; congruence.
  - exact float_is_numeric.
  - reflexivity.
  - intros g model_name system convo.
    pose proof (create_args_keys g model_name system convo) as H.
    cbn zeta in *. tauto.
Qed.

End SamplingFacts.

(** ** Settings *)

Lemma load_settings_total settings_file g :
  exists g', load_settings settings_file g = Ok g'.
Proof. destruct settings_file; cbn; eauto. Qed.

Lemma load_settings_unchanged settings_file g :
  missing_or_unparsable settings_file = true ->
  load_settings settings_file g = Ok g.
Proof. destruct settings_file as [[e|v]|]; intros H; [reflexivity|discriminate H|reflexivity]. Qed.

(** A settings file that parses to something other than an object is
    recovered from in the same way. *)
Lemma load_settings_not_an_object v g :
  (forall d, v <> VDict d) ->
  load_settings (Some (Json v)) g = Ok g.
Proof. intros H. destruct v; try reflexivity. now destruct (H d). Qed.

(** C6.  [load_settings] never raises.  When the settings file is missing or
    cannot be read and parsed, the exception is swallowed and the three
    globals keep their values; at the call in [LLMChatClient.__init__] these
    are the module-level initial values, so the configuration after the call
    is mode [temperature], temperature [0.9], no [top_p]. *)
Theorem load_settings_falls_back_to_defaults settings_file :
  missing_or_unparsable settings_file = true ->
  load_settings settings_file initial_sampling
  = Ok (Sampling (VFloat (S754_finite false 8106479329266893 (-53)))
                 VNone (VStr (lit "temperature")))
  /\ (forall g, load_settings settings_file g = Ok g)
  /\ (forall f g, exists g', load_settings f g = Ok g').
Proof.
  intros H. split; [|split].
  - now rewrite load_settings_unchanged.
  - intros g. now apply load_settings_unchanged.
  - intros f g. apply load_settings_total.
Qed.

Lemma load_settings_falls_back_to_defaults_witness :
  load_settings None initial_sampling
  = Ok (Sampling (VFloat (S754_finite false 8106479329266893 (-53)))
                 VNone (VStr (lit "temperature"))).
Proof.
  apply (load_settings_falls_back_to_defaults None). reflexivity.
Defined.

(** ** Titles *)

Lemma title_of_user_content c :
  title_of_content (VStr c) = Ok (derived_title c).
Proof.
  unfold title_of_content, derived_title.
  destruct (40 <? length c)%nat; [reflexivity|].
  now rewrite app_nil_r.
Qed.

Lemma title_skips_non_user pre rest :
  Forall not_user pre ->
  get_conversation_title (pre ++ rest) = get_conversation_title rest.
Proof.
  induction 1 as [|m pre (role & Hr & Hne) _ IH]; [reflexivity|].
  change ((m :: pre) ++ rest) with (m :: (pre ++ rest)).
  cbn [get_conversation_title]. rewrite Hr. cbn [rbind]. now rewrite Hne.
Qed.

Lemma title_no_user msgs :
  Forall not_user msgs -> get_conversation_title msgs = Ok NEW_CHAT.
Proof.
  intros H. rewrite <- (app_nil_r msgs). now rewrite title_skips_non_user.
Qed.

Lemma title_first_user pre m c post :
  Forall not_user pre -> user_says m c ->
  get_conversation_title (pre ++ m :: post) = Ok (derived_title c).
Proof.
  intros Hpre (role & Hr & Hu & Hc). rewrite title_skips_non_user by assumption.
  cbn [get_conversation_title]. rewrite Hr. cbn [rbind]. rewrite Hu, Hc.
  apply title_of_user_content.
Qed.

Lemma auto_save_keeps_title now uuid s fs :
  eq_str (current_conversation_title s) NEW_CHAT = false ->
  exists conv_id,
    auto_save_current_conversation now uuid s fs
    = Ok (Session conv_id (current_conversation_title s) (messages s),
          save_conversation now conv_id (current_conversation_title s)
                            (messages s) fs).
Proof.
  intros H. unfold auto_save_current_conversation. rewrite H. cbn. eauto.
Qed.

(** C5, as the code has it.  The title of a message list is derived from the
    first message with role ["user"]: the first 40 characters of its content
    with surrounding whitespace stripped, followed by three full stops
    exactly when the content is longer than 40 characters, and ["New Chat"]
    when that leaves nothing; it is ["New Chat"] when no message has role
    ["user"]; and [auto_save_current_conversation] keeps a title that is not
    ["New Chat"]. *)
Theorem conversation_title_derivation pre m c post :
  Forall not_user pre -> user_says m c ->
  get_conversation_title (pre ++ m :: post)
  = Ok (let t := strip (take 40 c)
                 ++ (if (40 <? length c)%nat then lit "..." else []) in
        match t with [] => lit "New Chat" | _ => t end)
  /\ get_conversation_title pre = Ok (lit "New Chat")
  /\ (forall now uuid s fs,
         eq_str (current_conversation_title s) (lit "New Chat") = false ->
         exists s' fs',
           auto_save_current_conversation now uuid s fs = Ok (s', fs')
           /\ current_conversation_title s' = current_conversation_title s).
Proof.
  intros Hpre Hm. split; [|split].
  - exact (title_first_user pre m c post Hpre Hm).
  - exact (title_no_user pre Hpre).
  - intros now uuid s fs H.
    destruct (auto_save_keeps_title now uuid s fs H) as [conv_id E].
    rewrite E. eauto.
Qed.

Lemma conversation_title_derivation_witness :
  get_conversation_title
    ([message (lit "system") SYSTEM_PROMPT]
     ++ message (lit "user") (lit " hello ")
     :: [message (lit "assistant") (lit "Hello!")])
  = Ok (lit "hello")
  /\ get_conversation_title [message (lit "system") SYSTEM_PROMPT]
     = Ok (lit "New Chat").
Proof.
  destruct (conversation_title_derivation
              [message (lit "system") SYSTEM_PROMPT]
              (message (lit "user") (lit " hello ")) (lit " hello ")
              [message (lit "assistant") (lit "Hello!")]) as (H1 & H2 & _).
  - repeat constructor. exists (VStr (lit "system")). split; reflexivity.
  - exists (VStr (lit "user")). repeat split.
  - split; [exact H1|exact H2].
Defined.

(** The title of the specification differs from the code's on a content of
    41 characters (the suffix) and on a blank content (the sentinel). *)
Lemma title_not_as_specified :
  (user_says (message (lit "user") (repeat 97%N 41)) (repeat 97%N 41)
   /\ get_conversation_title [message (lit "user") (repeat 97%N 41)]
      = Ok (repeat 97%N 40 ++ lit "...")
   /\ get_conversation_title [message (lit "user") (repeat 97%N 41)]
      <> Ok (specified_title (repeat 97%N 41)))
  /\ (user_says (message (lit "user") (lit "   ")) (lit "   ")
      /\ get_conversation_title [message (lit "user") (lit "   ")]
         = Ok (lit "New Chat")
      /\ get_conversation_title [message (lit "user") (lit "   ")]
         <> Ok (specified_title (lit "   "))).
Proof.
  split; (split; [|split]).
  - exists (VStr (lit "user")). repeat split.
  - reflexivity.
  - vm_compute. discriminate.
  - exists (VStr (lit "user")). repeat split.
  - reflexivity.
  - vm_compute. discriminate.
Qed.

Example title_short :
  get_conversation_title
    [message (lit "system") SYSTEM_PROMPT; message (lit "user") (lit " hello ")]
  = Ok (lit "hello").
Proof. reflexivity. Qed.

(** ** Store *)

Lemma filename_inj a b : filename (Some a) = filename (Some b) -> a = b.
Proof. cbn. apply app_inv_tail. Qed.

Lemma save_falsy now conv_id title msgs fs :
  falsy conv_id = true -> save_conversation now conv_id title msgs fs = fs.
Proof. destruct conv_id as [[|c cs]|]; [reflexivity|discriminate|reflexivity]. Qed.

Lemma save_truthy now conv_id title msgs fs :
  conv_id <> [] ->
  save_conversation now (Some conv_id) title msgs fs
  = <[filename (Some conv_id) := Json (record conv_id title msgs now)]> fs.
Proof. destruct conv_id; [congruence|reflexivity]. Qed.

Lemma load_after_save now conv_id title msgs fs :
  conv_id <> [] ->
  load_conversation (Some conv_id)
    (save_conversation now (Some conv_id) title msgs fs)
  = Ok (record conv_id title msgs now).
Proof.
  intros H. rewrite save_truthy by assumption.
  unfold load_conversation. now rewrite lookup_insert_eq.
Qed.

Lemma save_twice now1 now2 conv_id title msgs fs :
  save_conversation now2 conv_id title msgs
    (save_conversation now1 conv_id title msgs fs)
  = save_conversation now2 conv_id title msgs fs.
Proof.
  destruct conv_id as [[|c cs]|]; try reflexivity.
  cbn [save_conversation]. apply insert_insert_eq.
Qed.

(** C10.  [save_conversation] with an id that is [None] or the empty string
    returns at its first statement: the store is left as it was. *)
Theorem save_conversation_without_id now conv_id title msgs fs :
  falsy conv_id = true ->
  save_conversation now conv_id title msgs fs = fs.
Proof. apply save_falsy. Qed.

Lemma save_conversation_without_id_witness :
  save_conversation (lit "2024-01-01T00:00:00") (Some []) (VStr (lit "t"))
    [message (lit "user") (lit "hi")] ∅ = ∅
  /\ save_conversation (lit "2024-01-01T00:00:00") None (VStr (lit "t"))
       [message (lit "user") (lit "hi")] ∅ = ∅.
Proof.
  split.
  - apply (save_conversation_without_id _ (Some [])). reflexivity.
  - apply (save_conversation_without_id _ None). reflexivity.
Defined.

(** C8, as the code has it.  After [save_conversation] with a non-empty id,
    [load_conversation] of that id returns the record written, whose
    [messages] and [title] are the ones saved; saving the same state again
    rewrites the record with the same id, title and messages and the
    timestamp of the later call, so the store is the same exactly when the
    two calls read the same clock value; and [load_conversation] of an id
    with no file returns [None]. *)
Theorem save_load_round_trip now conv_id title msgs fs :
  conv_id <> [] ->
  (exists r,
      load_conversation (Some conv_id)
        (save_conversation now (Some conv_id) title msgs fs) = Ok r
      /\ get r (lit "messages") VNone = Ok (VList msgs)
      /\ get r (lit "title") VNone = Ok title
      /\ get r (lit "id") VNone = Ok (VStr conv_id)
      /\ get r (lit "timestamp") VNone = Ok (VStr now))
  /\ (forall later,
         save_conversation later (Some conv_id) title msgs
           (save_conversation now (Some conv_id) title msgs fs)
         = save_conversation later (Some conv_id) title msgs fs)
  /\ (forall missing fs',
         fs' !! filename missing = None ->
         load_conversation missing fs' = Ok VNone).
Proof.
  intros H. split; [|split].
  - exists (record conv_id title msgs now). split.
    + now apply load_after_save.
    + repeat split.
  - intros later. apply save_twice.
  - intros missing fs' Hm. unfold load_conversation. now rewrite Hm.
Qed.

Lemma save_load_round_trip_witness :
  exists r,
    load_conversation (Some (lit "c1"))
      (save_conversation (lit "2024-01-01T00:00:00") (Some (lit "c1"))
         (VStr (lit "hi")) [message (lit "user") (lit "hi")] ∅) = Ok r
    /\ get r (lit "messages") VNone = Ok (VList [message (lit "user") (lit "hi")])
    /\ get r (lit "title") VNone = Ok (VStr (lit "hi"))
    /\ get r (lit "id") VNone = Ok (VStr (lit "c1"))
    /\ get r (lit "timestamp") VNone = Ok (VStr (lit "2024-01-01T00:00:00")).
Proof.
  refine (proj1 (save_load_round_trip (lit "2024-01-01T00:00:00") (lit "c1")
                   (VStr (lit "hi")) [message (lit "user") (lit "hi")] ∅ _)).
  vm_compute. discriminate.
Defined.

(** Two saves of one state at different clock values leave different
    records in the store. *)
Lemma save_not_idempotent :
  save_conversation (lit "2024-01-01T00:00:01") (Some (lit "c1"))
    (VStr (lit "hi")) [message (lit "user") (lit "hi")]
    (save_conversation (lit "2024-01-01T00:00:00") (Some (lit "c1"))
       (VStr (lit "hi")) [message (lit "user") (lit "hi")] ∅)
  <> save_conversation (lit "2024-01-01T00:00:00") (Some (lit "c1"))
       (VStr (lit "hi")) [message (lit "user") (lit "hi")] ∅.
Proof.
  intros E.
  apply (f_equal (fun fs : store => fs !! filename (Some (lit "c1")))) in E.
  vm_compute in E. discriminate E.
Qed.

(** *** The order on strings *)

Lemma str_ltb_irrefl a : str_ltb a a = false.
Proof.
  induction a as [|x a IH]; [reflexivity|].
  cbn. rewrite N.ltb_irrefl, N.eqb_refl. exact IH.
Qed.

Lemma str_ltb_cons x a y b :
  str_ltb (x :: a) (y :: b) = true <->
  (x < y)%N \/ (x = y /\ str_ltb a b = true).
Proof.
  cbn. rewrite orb_true_iff, andb_true_iff, N.ltb_lt, N.eqb_eq. tauto.
Qed.

Lemma str_ltb_trans a b c :
  str_ltb a b = true -> str_ltb b c = true -> str_ltb a c = true.
Proof.
  revert b c. induction a as [|x a IH]; intros [|y b] [|z c]; try discriminate;
    try reflexivity.
  rewrite !str_ltb_cons. intros [H1|[-> H1]] [H2|[-> H2]].
  - left. lia.
  - left. exact H1.
  - left. exact H2.
  - right. split; [reflexivity|]. eapply IH; eassumption.
Qed.

Lemma str_ltb_trichotomy a b :
  str_ltb a b = true \/ a = b \/ str_ltb b a = true.
Proof.
  revert b. induction a as [|x a IH]; intros [|y b]; cbn [str_ltb]; auto.
  destruct (N.lt_trichotomy x y) as [H|[->|H]].
  - left. apply str_ltb_cons. auto.
  - destruct (IH b) as [H|[->|H]].
    + left. apply str_ltb_cons. auto.
    + auto.
    + right. right. apply str_ltb_cons. auto.
  - right. right. apply str_ltb_cons. auto.
Qed.

Lemma str_ltb_asym a b : str_ltb a b = true -> str_ltb b a = false.
Proof.
  intros H. destruct (str_ltb b a) eqn:E; [|reflexivity].
  rewrite <- (str_ltb_irrefl a). symmetry. eapply str_ltb_trans; eassumption.
Qed.

Lemma str_geb_trans a b c :
  str_ltb a b = false -> str_ltb b c = false -> str_ltb a c = false.
Proof.
  intros Hab Hbc. destruct (str_ltb a c) eqn:Hac; [|reflexivity].
  destruct (str_ltb_trichotomy a b) as [H|[->|H]]; [congruence..|].
  rewrite <- Hbc. symmetry. eapply str_ltb_trans; eassumption.
Qed.


(** *** The stable descending sort *)

Definition key_not_less (a b : str * value) : Prop := str_ltb a.1 b.1 = false.

#[local] Instance key_not_less_trans : Transitive key_not_less.
Proof. intros a b c. apply str_geb_trans. Qed.

Lemma insert_desc_perm kx l : insert_desc kx l ≡ₚ kx :: l.
Proof.
  induction l as [|ky l IH]; [reflexivity|].
  cbn. destruct (str_ltb kx.1 ky.1); [|reflexivity].
  rewrite IH. apply perm_swap.
Qed.

Lemma sort_desc_perm l : sort_desc l ≡ₚ l.
Proof.
  induction l as [|kx l IH]; [reflexivity|].
  cbn. rewrite insert_desc_perm. now rewrite IH.
Qed.

Lemma insert_desc_HdRel ky kx l :
  key_not_less ky kx -> HdRel key_not_less ky l ->
  HdRel key_not_less ky (insert_desc kx l).
Proof.
  intros Hx Hl. destruct l as [|kz l]; cbn.
  - now constructor.
  - destruct (str_ltb kx.1 kz.1); constructor; [now inversion Hl|exact Hx].
Qed.

Lemma insert_desc_sorted kx l :
  Sorted key_not_less l -> Sorted key_not_less (insert_desc kx l).
Proof.
  induction 1 as [|ky l Hl IH Hhd]; cbn.
  - repeat constructor.
  - destruct (str_ltb kx.1 ky.1) eqn:E.
    + constructor; [exact IH|].
      apply insert_desc_HdRel; [|exact Hhd].
      now apply str_ltb_asym.
    + constructor; [now constructor|]. constructor. exact E.
Qed.

Lemma sort_desc_sorted l : StronglySorted key_not_less (sort_desc l).
Proof.
  apply Sorted_StronglySorted; [exact key_not_less_trans|].
  induction l as [|kx l IH]; cbn; [constructor|].
  now apply insert_desc_sorted.
Qed.

(** Elements with equal keys keep their order: the sort is stable. *)
Lemma insert_desc_equal_keys kx ky l :
  str_ltb kx.1 ky.1 = false ->
  insert_desc kx (ky :: l) = kx :: ky :: l.
Proof. intros H. cbn. now rewrite H. Qed.

(** *** Listing *)

Lemma conversation_like_get v :
  conversation_like v = true ->
  get v (lit "timestamp") (VStr []) = Ok (VStr (timestamp_of v)).
Proof.
  destruct v; try discriminate. cbn.
  destruct (assoc _ d) as [[]|]; try discriminate; reflexivity.
Qed.

Lemma timestamp_keys convs :
  Forall (fun v => conversation_like v = true) convs ->
  rmapM (fun x => get x (lit "timestamp") (VStr [])) convs
  = Ok (map (fun v => VStr (timestamp_of v)) convs).
Proof.
  induction 1 as [|v convs Hv _ IH]; [reflexivity|].
  cbn [rmapM map]. rewrite (conversation_like_get v Hv). cbn [rbind].
  now rewrite IH.
Qed.

Lemma all_str_keys (f : value -> str) l :
  all_str (map (fun v => VStr (f v)) l) = Some (map f l).
Proof.
  induction l as [|v l IH]; [reflexivity|]. cbn. now rewrite IH.
Qed.

Lemma zip_keys (f : value -> str) l :
  zip (map f l) l = map (fun v => (f v, v)) l.
Proof. induction l as [|v l IH]; [reflexivity|]. cbn. now f_equal. Qed.

Section ListingFacts.

Variable sort_other : list (value * value) -> res (list value).

Lemma sort_by_timestamp_ok convs :
  Forall (fun v => conversation_like v = true) convs ->
  sort_by_timestamp sort_other convs
  = Ok (map snd (sort_desc (map (fun v => (timestamp_of v, v)) convs))).
Proof.
  intros H. unfold sort_by_timestamp. rewrite (timestamp_keys convs H).
  cbn [rbind]. rewrite all_str_keys. now rewrite zip_keys.
Qed.

End ListingFacts.

Lemma sorted_by_key_not_older l :
  Forall (fun kv : str * value => kv.1 = timestamp_of kv.2) l ->
  StronglySorted key_not_less l ->
  StronglySorted not_older (map snd l).
Proof.
  intros Hk Hs. induction Hs as [|kv l Hs IH Hall]; cbn; [constructor|].
  apply Forall_cons in Hk as [Hkv Hk]. constructor; [now apply IH|].
  apply Forall_forall. intros v Hv.
  apply list_elem_of_In, in_map_iff in Hv as ([k v'] & <- & Hin).
  apply list_elem_of_In in Hin.
  pose proof (proj1 (Forall_forall _ _) Hall _ Hin) as Hle.
  pose proof (proj1 (Forall_forall _ _) Hk _ Hin) as Hkey.
  unfold not_older, key_not_less in *. cbn in *. now rewrite <- Hkv, <- Hkey.
Qed.

Lemma sort_decorated convs :
  map snd (sort_desc (map (fun v => (timestamp_of v, v)) convs)) ≡ₚ convs
  /\ StronglySorted not_older
       (map snd (sort_desc (map (fun v => (timestamp_of v, v)) convs))).
Proof.
  split.
  - rewrite (Permutation_map snd (sort_desc_perm _)).
    rewrite map_map. cbn. now rewrite map_id.
  - apply sorted_by_key_not_older; [|apply sort_desc_sorted].
    rewrite sort_desc_perm. apply Forall_forall.
    intros kv Hin. apply list_elem_of_In, in_map_iff in Hin as (v & <- & _).
    reflexivity.
Qed.

Lemma read_all_readable (files : list (str * file)) :
  Forall (fun nf : str * file => has_suffix (lit ".json") nf.1 = true) files ->
  read_all files = omap readable files.
Proof.
  induction 1 as [|[name f] files Hs _ IH]; [reflexivity|].
  cbn [fst] in Hs. cbn [read_all omap list_omap]. unfold readable at 1.
  cbn [fst snd]. rewrite Hs, <- IH. destruct f; reflexivity.
Qed.

Lemma omap_readable_filter (files : list (str * file)) :
  omap readable
    (filter (fun nf : str * file => has_suffix (lit ".json") nf.1 = true) files)
  = omap readable files.
Proof.
  induction files as [|[name f] files IH]; [reflexivity|].
  rewrite filter_cons. cbn [fst]. case_decide as Hs.
  - cbn [omap list_omap]. now rewrite IH.
  - cbn [omap list_omap]. rewrite IH. unfold readable at 2. cbn [fst snd].
    destruct f; [reflexivity|]. now destruct (has_suffix _ name).
Qed.

Lemma read_all_glob fs : read_all (glob_json fs) = readable_records fs.
Proof.
  unfold glob_json, readable_records.
  rewrite read_all_readable; [apply omap_readable_filter|].
  apply Forall_forall. intros nf Hin. now apply list_elem_of_filter in Hin as [? _].
Qed.

Lemma elem_of_readable_records fs v :
  v ∈ readable_records fs <->
  exists name, has_suffix (lit ".json") name = true
               /\ fs !! name = Some (Json v).
Proof.
  unfold readable_records. rewrite list_elem_of_omap. split.
  - intros ([name f] & Hin & Hr). apply elem_of_map_to_list in Hin.
    unfold readable in Hr. cbn [fst snd] in Hr.
    destruct f as [e|v']; [discriminate|].
    destruct (has_suffix _ name) eqn:Hs; [|discriminate].
    injection Hr as ->. eauto.
  - intros (name & Hs & Hl). exists (name, Json v). split.
    + now apply elem_of_map_to_list.
    + unfold readable. cbn [fst snd]. now rewrite Hs.
Qed.


Lemma conversation_like_record c title msgs t :
  conversation_like (record c title msgs t) = true.
Proof. reflexivity. Qed.

Lemma has_suffix_filename c : has_suffix (lit ".json") (filename (Some c)) = true.
Proof.
  unfold has_suffix, filename. apply bool_decide_eq_true.
  rewrite length_app.
  replace (length c + length (lit ".json") - length (lit ".json"))%nat
    with (length c) by lia.
  apply drop_app_length.
Qed.


Section ListingTheorems.

Variable sort_other : list (value * value) -> res (list value).

Lemma list_conversations_general (fs : store) :
  (forall name v,
      has_suffix (lit ".json") name = true ->
      fs !! name = Some (Json v) -> conversation_like v = true) ->
  exists l,
    list_conversations sort_other fs = Ok l
    /\ l ≡ₚ readable_records fs
    /\ StronglySorted not_older l.
Proof.
  intros Hwf. unfold list_conversations. rewrite read_all_glob.
  rewrite sort_by_timestamp_ok.
  - eexists. split; [reflexivity|]. apply sort_decorated.
  - apply Forall_forall. intros v Hv.
    apply elem_of_readable_records in Hv as (name & Hs & Hl). eauto.
Qed.


End ListingTheorems.



(** ** Token estimate *)

Section TokenFacts.

Variable TIKTOKEN_AVAILABLE : bool.
Variable tiktoken_encode : str -> res (list N).



Lemma estimate_exact text toks :
  TIKTOKEN_AVAILABLE = true -> tiktoken_encode text = Ok toks ->
  estimate_tokens TIKTOKEN_AVAILABLE tiktoken_encode text = length toks.
Proof. unfold estimate_tokens. now intros -> ->. Qed.


End TokenFacts.




(** ** Streaming worker *)

Lemma consume_spec s out w :
  consume s out w
  = (match failure s with
     | Some e => Raise e
     | None => Ok (out ++ concat (deltas s))
     end,
     Worker (messages_list w) (signals w ++ map text_chunk (deltas s))).
Proof.
  revert out w. induction s as [|text rest IH|e]; intros out [msgs sigs]; cbn.
  - now rewrite !app_nil_r.
  - unfold wbind, emit. cbn. rewrite IH. cbn.
    rewrite <- !app_assoc. reflexivity.
  - now rewrite app_nil_r.
Qed.

Section WorkerFacts.

Variable float_of_str : str -> res spec_float.
Variable client : gmap str value -> stream.
Variable g : sampling.

(** [run] in closed form: the user message, then the assistant message
    the turn resolves to; the chunks, then the terminal signal. *)
Lemma run_turn user_text w :
  run float_of_str client g user_text w
  = (Ok tt,
     let t := turn float_of_str client g
                   (messages_list w ++ [message (lit "user") user_text]) in
     Worker (messages_list w
             ++ [message (lit "user") user_text;
                 message (lit "assistant") (reply t.2)])
            (signals w ++ map text_chunk t.1 ++ [terminal t.2])).
Proof.
  destruct w as [msgs sigs].
  assert (Hfail : forall e chunks,
             run_handler e
               (Worker (msgs ++ [message (lit "user") user_text])
                       (sigs ++ map text_chunk chunks))
             = (Ok tt,
                Worker (msgs ++ [message (lit "user") user_text;
                                 message (lit "assistant") (error_msg e)])
                       (sigs ++ map text_chunk chunks ++ [error (error_msg e)]))).
  { intros e chunks. unfold run_handler, wbind, append_message, emit.
    cbn [messages_list signals]. now rewrite <- !app_assoc. }
  unfold run, wtry, run_body, turn, request.
  unfold wbind at 1. cbn [append_message messages_list signals].
  unfold wbind at 1. cbn [read_messages messages_list signals].
  unfold wbind at 1, wlift at 1.
  destruct (system_contents (msgs ++ [message (lit "user") user_text]))
    as [cs|e]; cbn [rbind].
  2:{ rewrite <- (app_nil_r sigs) at 1. exact (Hfail e []). }
  destruct (py_join NL cs) as [joined|e]; cbn [rbind].
  2:{ rewrite <- (app_nil_r sigs) at 1. exact (Hfail e []). }
  unfold wbind at 1, wlift at 1.
  destruct (transcript (msgs ++ [message (lit "user") user_text]))
    as [convo|e]; cbn [rbind].
  2:{ rewrite <- (app_nil_r sigs) at 1. exact (Hfail e []). }
  unfold wbind at 1. rewrite consume_spec.
  cbn [messages_list signals fst snd app].
  destruct (failure (client _)) as [e|].
  - apply Hfail.
  - unfold wbind, append_message, emit. cbn [messages_list signals].
    rewrite <- !app_assoc. cbn [app reply terminal].
    destruct (concat (deltas _)); reflexivity.
Qed.

Lemma run_messages user_text w :
  messages_list (run float_of_str client g user_text w).2
  = messages_list w
    ++ [message (lit "user") user_text;
        message (lit "assistant")
          (reply (turn float_of_str client g
                    (messages_list w ++ [message (lit "user") user_text])).2)].
Proof. now rewrite run_turn. Qed.

Lemma run_signals user_text w :
  signals (run float_of_str client g user_text w).2
  = signals w
    ++ map text_chunk
         (turn float_of_str client g
            (messages_list w ++ [message (lit "user") user_text])).1
    ++ [terminal (turn float_of_str client g
                    (messages_list w ++ [message (lit "user") user_text])).2].
Proof. now rewrite run_turn. Qed.

End WorkerFacts.

Lemma transcript_app a b :
  transcript (a ++ b)
  = (x <- transcript a ;; y <- transcript b ;; Ok (x ++ y))%res.
Proof.
  induction a as [|m a IH].
  - cbn. now destruct (transcript b).
  - change ((m :: a) ++ b) with (m :: (a ++ b)). cbn [transcript].
    destruct (subscript m (lit "role")) as [role|e]; cbn [rbind]; [|reflexivity].
    rewrite IH. destruct (transcript a) as [x|e]; cbn [rbind]; [|reflexivity].
    destruct (transcript b) as [y|e]; cbn [rbind]; [|reflexivity].
    now destruct (eq_str role (lit "user") || eq_str role (lit "assistant")).
Qed.

Lemma transcript_user_message text :
  transcript [message (lit "user") text] = Ok [message (lit "user") text].
Proof. reflexivity. Qed.

Lemma no_terminal_among_chunks chunks :
  filter (fun e => is_terminal e = true) (map text_chunk chunks) = [].
Proof.
  induction chunks as [|c chunks IH]; [reflexivity|].
  cbn [map]. rewrite filter_cons. now case_decide.
Qed.

Lemma one_terminal chunks r :
  length (filter (fun e => is_terminal e = true)
                 (map text_chunk chunks ++ [terminal r])) = 1%nat.
Proof.
  rewrite filter_app, no_terminal_among_chunks. now destruct r.
Qed.

Section WorkerTheorems.

Variable float_of_str : str -> res spec_float.
Variable client : gmap str value -> stream.
Variable g : sampling.

Lemma request_ends_with_user_message msgs text kwargs :
  request float_of_str g (msgs ++ [message (lit "user") text]) = Ok kwargs ->
  exists convo,
    kwargs !! lit "messages"
    = Some (VList (convo ++ [message (lit "user") text])).
Proof.
  unfold request.
  destruct (system_contents _) as [cs|e]; cbn [rbind]; [|discriminate].
  destruct (py_join NL cs) as [joined|e]; cbn [rbind]; [|discriminate].
  rewrite transcript_app, transcript_user_message.
  destruct (transcript msgs) as [convo|e]; cbn [rbind]; [|discriminate].
  intros [= <-]. exists convo.
  apply (create_args_keys float_of_str g).
Qed.

(** C1.  Every call of [run] leaves the message list extended by exactly
    the user message followed by one assistant message.  When anything in
    the [try] block raises --- building the prompt, opening the stream, a
    delta, closing the stream --- that assistant message is
    [(API error: <exception class>: <exception text>)], and after the
    chunks already relayed the one terminal signal is [error] with the
    same text. *)
Theorem run_resolves_every_turn user_text w :
  exists content,
    (run float_of_str client g user_text w).1 = Ok tt
    /\ messages_list (run float_of_str client g user_text w).2
       = messages_list w
         ++ [message (lit "user") user_text;
             message (lit "assistant") content]
    /\ last (messages_list (run float_of_str client g user_text w).2)
       = Some (message (lit "assistant") content)
    /\ (forall e,
           request float_of_str g
             (messages_list w ++ [message (lit "user") user_text]) = Raise e
           \/ (exists kwargs,
                  request float_of_str g
                    (messages_list w ++ [message (lit "user") user_text])
                  = Ok kwargs
                  /\ failure (client kwargs) = Some e) ->
           content = lit "(API error: " ++ exn_type e ++ lit ": "
                     ++ exn_text e ++ lit ")"
           /\ exists chunks,
               signals (run float_of_str client g user_text w).2
               = signals w ++ map text_chunk chunks ++ [error content]
               /\ length (filter (fun ev => is_terminal ev = true)
                            (map text_chunk chunks ++ [error content]))
                  = 1%nat).
Proof.
  rewrite run_turn. cbn zeta. cbn [fst snd messages_list signals].
  set (msgs := messages_list w ++ [message (lit "user") user_text]).
  exists (reply (turn float_of_str client g msgs).2).
  split_all; [reflexivity|reflexivity| |].
  - change [message (lit "user") user_text;
            message (lit "assistant") (reply (turn float_of_str client g msgs).2)]
      with ([message (lit "user") user_text]
            ++ [message (lit "assistant")
                  (reply (turn float_of_str client g msgs).2)]).
    rewrite app_assoc. apply last_snoc.
  - intros e He. unfold turn.
    destruct He as [->|(kwargs & -> & Hf)]; [|rewrite Hf]; cbn [fst snd reply].
    + split; [reflexivity|]. exists []. split; [reflexivity|].
      exact (one_terminal [] (Raise e)).
    + split; [reflexivity|]. exists (deltas (client kwargs)).
      split; [reflexivity|]. exact (one_terminal _ (Raise e)).
Qed.

(** C2.  Every call of [run] returns, and what it emits is the chunks
    followed by exactly one terminal signal, [finished] or [error]; the
    chunks are the deltas of the backend's stream in the order the stream
    yielded them (none when the request could not be built). *)
Theorem run_one_terminal_event user_text w :
  exists chunks t,
    (run float_of_str client g user_text w).1 = Ok tt
    /\ signals (run float_of_str client g user_text w).2
       = signals w ++ map text_chunk chunks ++ [t]
    /\ ((exists out, t = finished out) \/ (exists descriptor, t = error descriptor))
    /\ length (filter (fun ev => is_terminal ev = true)
                 (map text_chunk chunks ++ [t])) = 1%nat
    /\ (forall kwargs,
           request float_of_str g
             (messages_list w ++ [message (lit "user") user_text]) = Ok kwargs ->
           chunks = deltas (client kwargs)
           /\ (failure (client kwargs) = None -> exists out, t = finished out)
           /\ (forall e, failure (client kwargs) = Some e ->
                         t = error (error_msg e)))
    /\ (forall e,
           request float_of_str g
             (messages_list w ++ [message (lit "user") user_text]) = Raise e ->
           chunks = [] /\ t = error (error_msg e)).
Proof.
  rewrite run_turn. cbn zeta. cbn [fst snd messages_list signals].
  eexists _, _. split_all; [reflexivity|reflexivity| |apply one_terminal| |].
  - destruct (turn _ _ _ _).2; cbn; eauto.
  - intros kwargs E. unfold turn. rewrite E. cbn [fst snd].
    split_all; [reflexivity| |].
    + intros ->. cbn. eauto.
    + now intros e ->.
  - intros e E. unfold turn. rewrite E. split; reflexivity.
Qed.

End WorkerTheorems.

(** C3.  When the request can be built and the stream ends without an
    exception, [run] appends the user message and then the assistant message
    holding the concatenated deltas, relays the deltas in order and emits
    [finished] with that text; the [messages] sent to the backend already
    end with the user message; deltas ["Hel"], ["lo"] give ["Hello"]; and a
    stream without text gives ["(Empty response)"] in both places. *)
Theorem run_streams_reply
    (float_of_str : str -> res spec_float) (client : gmap str value -> stream)
    (g : sampling) (user_text : str) (w : worker) (kwargs : gmap str value) :
  request float_of_str g (messages_list w ++ [message (lit "user") user_text])
  = Ok kwargs ->
  failure (client kwargs) = None ->
  run float_of_str client g user_text w
  = (Ok tt,
     Worker (messages_list w
             ++ [message (lit "user") user_text;
                 message (lit "assistant")
                   (match concat (deltas (client kwargs)) with
                    | [] => lit "(Empty response)"
                    | out => out
                    end)])
            (signals w ++ map text_chunk (deltas (client kwargs))
             ++ [finished (match concat (deltas (client kwargs)) with
                           | [] => lit "(Empty response)"
                           | out => out
                           end)]))
  /\ (exists convo,
         kwargs !! lit "messages"
         = Some (VList (convo ++ [message (lit "user") user_text])))
  /\ (client kwargs = Delta (lit "Hel") (Delta (lit "lo") EndOfStream) ->
      run float_of_str client g user_text w
      = (Ok tt,
         Worker (messages_list w
                 ++ [message (lit "user") user_text;
                     message (lit "assistant") (lit "Hello")])
                (signals w
                 ++ [text_chunk (lit "Hel"); text_chunk (lit "lo");
                     finished (lit "Hello")])))
  /\ (concat (deltas (client kwargs)) = [] ->
      run float_of_str client g user_text w
      = (Ok tt,
         Worker (messages_list w
                 ++ [message (lit "user") user_text;
                     message (lit "assistant") (lit "(Empty response)")])
                (signals w ++ map text_chunk (deltas (client kwargs))
                 ++ [finished (lit "(Empty response)")]))).
Proof.
  intros Hreq Hend.
  assert (Hrun : run float_of_str client g user_text w
    = (Ok tt,
       Worker (messages_list w
               ++ [message (lit "user") user_text;
                   message (lit "assistant")
                     (reply (Ok (concat (deltas (client kwargs)))))])
              (signals w ++ map text_chunk (deltas (client kwargs))
               ++ [finished (reply (Ok (concat (deltas (client kwargs)))))]))).
  { rewrite run_turn. unfold turn. rewrite Hreq, Hend. reflexivity. }
  split_all.
  - rewrite Hrun. now destruct (concat (deltas (client kwargs))).
  - eapply request_ends_with_user_message. exact Hreq.
  - intros Hs. rewrite Hrun, Hs. reflexivity.
  - intros Hs. rewrite Hrun, Hs. reflexivity.
Qed.

Lemma run_streams_reply_witness :
  run float_of_str_none
      (fun _ => Delta (lit "Hel") (Delta (lit "lo") EndOfStream))
      initial_sampling (lit "hi")
      (Worker [message (lit "system") SYSTEM_PROMPT] [])
  = (Ok tt,
     Worker [message (lit "system") SYSTEM_PROMPT;
             message (lit "user") (lit "hi");
             message (lit "assistant") (lit "Hello")]
            [text_chunk (lit "Hel"); text_chunk (lit "lo");
             finished (lit "Hello")]).
Proof.
  refine (proj1 (proj2 (proj2
    (run_streams_reply float_of_str_none
       (fun _ => Delta (lit "Hel") (Delta (lit "lo") EndOfStream))
       initial_sampling (lit "hi")
       (Worker [message (lit "system") SYSTEM_PROMPT] [])
       (_create_args float_of_str_none initial_sampling MODEL SYSTEM_PROMPT
          [message (lit "user") (lit "hi")])
       _ _))) _); reflexivity.
Defined.

Example run_backend_raises_mid_stream :
  run float_of_str_none
      (fun _ => Delta (lit "Hel")
                  (Fail (Exn (lit "APIConnectionError") (lit "Connection error."))))
      initial_sampling (lit "hi")
      (Worker [message (lit "system") SYSTEM_PROMPT] [])
  = (Ok tt,
     Worker [message (lit "system") SYSTEM_PROMPT;
             message (lit "user") (lit "hi");
             message (lit "assistant")
               (lit "(API error: APIConnectionError: Connection error.)")]
            [text_chunk (lit "Hel");
             error (lit "(API error: APIConnectionError: Connection error.)")]).
Proof. reflexivity. Qed.

Example run_empty_stream :
  run float_of_str_none (fun _ => Delta [] EndOfStream)
      initial_sampling (lit "hi")
      (Worker [message (lit "system") SYSTEM_PROMPT] [])
  = (Ok tt,
     Worker [message (lit "system") SYSTEM_PROMPT;
             message (lit "user") (lit "hi");
             message (lit "assistant") (lit "(Empty response)")]
            [text_chunk []; finished (lit "(Empty response)")]).
Proof. reflexivity. Qed.

Example run_malformed_history :
  run float_of_str_none (fun _ => Delta (lit "Hel") EndOfStream)
      initial_sampling (lit "hi")
      (Worker [VDict [(lit "content", VStr (lit "no role"))]] [])
  = (Ok tt,
     Worker [VDict [(lit "content", VStr (lit "no role"))];
             message (lit "user") (lit "hi");
             message (lit "assistant") (lit "(API error: KeyError: 'role')")]
            [error (lit "(API error: KeyError: 'role')")]).
Proof. reflexivity. Qed.

(** * Further properties *)

(** ** Settings file *)

(** X1.  What [save_settings] writes, [load_settings] reads back: the three
    globals are restored whatever they were before the load. *)
Theorem settings_round_trip g g0 :
  load_settings (Some (save_settings g)) g0 = Ok g.
Proof. destruct g as [t p m]. reflexivity. Qed.

Lemma load_settings_object d g :
  load_settings (Some (Json (VDict d))) g
  = Ok (Sampling
          (match assoc (lit "temperature") d with
           | Some v => v | None => DEFAULT_TEMPERATURE end)
          (match assoc (lit "top_p") d with
           | Some v => v | None => DEFAULT_TOP_P end)
          (match assoc (lit "sampling_mode") d with
           | Some v => v | None => VStr (lit "temperature") end)).
Proof. reflexivity. Qed.

(** X2.  A settings file that parses to an object replaces all three
    globals: a key the object lacks is set to the module default, the value
    held before the load is not kept.  An empty object resets everything. *)
Theorem load_settings_absent_key_is_default d g g' :
  load_settings (Some (Json (VDict d))) g = Ok g' ->
  (assoc (lit "temperature") d = None ->
   current_temperature g' = DEFAULT_TEMPERATURE)
  /\ (assoc (lit "top_p") d = None -> current_top_p g' = VNone)
  /\ (assoc (lit "sampling_mode") d = None ->
      current_sampling_mode g' = VStr (lit "temperature"))
  /\ (d = [] -> g' = initial_sampling).
Proof.
  rewrite load_settings_object. intros [= <-]. cbn [current_temperature
    current_top_p current_sampling_mode]. split_all.
  - now intros ->.
  - now intros ->.
  - now intros ->.
  - now intros ->.
Qed.

Lemma load_settings_absent_key_is_default_witness :
  current_temperature
    (Sampling DEFAULT_TEMPERATURE (VFloat F0_5) (VStr (lit "top_p")))
  = DEFAULT_TEMPERATURE.
Proof.
  refine (proj1 (load_settings_absent_key_is_default
                   [(lit "top_p", VFloat F0_5);
                    (lit "sampling_mode", VStr (lit "top_p"))]
                   (Sampling (VFloat F1) VNone (VStr (lit "temperature")))
                   _ _) _); reflexivity.
Defined.

(** ** Store *)

(** X3.  After [delete_conversation] the id loads as [None]; deleting an id
    that has no file changes nothing; the files of other names are
    untouched; and what a save wrote is gone after the delete. *)
Theorem delete_conversation_removes (conv_id : option str) (fs : store) :
  load_conversation conv_id (delete_conversation conv_id fs) = Ok VNone
  /\ (fs !! filename conv_id = None -> delete_conversation conv_id fs = fs)
  /\ (forall other,
         filename other <> filename conv_id ->
         load_conversation other (delete_conversation conv_id fs)
         = load_conversation other fs)
  /\ (forall (now : str) (title : value) (msgs : list value),
         delete_conversation conv_id
           (save_conversation now conv_id title msgs fs)
         = delete_conversation conv_id fs).
Proof.
  unfold delete_conversation, load_conversation. split_all.
  - now rewrite lookup_delete_eq.
  - apply delete_id.
  - intros other Hne. now rewrite lookup_delete_ne.
  - intros now title msgs. destruct conv_id as [[|c cs]|]; try reflexivity.
    cbn [save_conversation]. apply delete_insert_eq.
Qed.

(** X4.  A save touches the file of its own id only, and replaces that file
    whole: loading any other id gives what it gave before, and of two saves
    under one id only the later one is left. *)
Theorem save_conversation_overwrites_own_file
    (now conv_id : str) (title : value) (msgs : list value) (fs : store)
    (other : str) :
  conv_id <> [] -> other <> conv_id ->
  load_conversation (Some other)
    (save_conversation now (Some conv_id) title msgs fs)
  = load_conversation (Some other) fs
  /\ (forall (earlier : str) (title0 : value) (msgs0 : list value),
         save_conversation now (Some conv_id) title msgs
           (save_conversation earlier (Some conv_id) title0 msgs0 fs)
         = save_conversation now (Some conv_id) title msgs fs).
Proof.
  intros Hc Hne. rewrite !save_truthy by assumption. split.
  - unfold load_conversation. rewrite lookup_insert_ne; [reflexivity|].
    intros E. apply Hne. symmetry. now apply filename_inj.
  - intros earlier title0 msgs0. rewrite !save_truthy by assumption.
    apply insert_insert_eq.
Qed.

Lemma save_conversation_overwrites_own_file_witness :
  load_conversation (Some (lit "b"))
    (save_conversation (lit "2024-01-02") (Some (lit "a")) VNone []
       (save_conversation (lit "2024-01-01") (Some (lit "b")) VNone [] ∅))
  = load_conversation (Some (lit "b"))
      (save_conversation (lit "2024-01-01") (Some (lit "b")) VNone [] ∅).
Proof.
  refine (proj1 (save_conversation_overwrites_own_file
                   (lit "2024-01-02") (lit "a") VNone []
                   (save_conversation (lit "2024-01-01") (Some (lit "b")) VNone [] ∅)
                   (lit "b") _ _)); lit_neq.
Defined.

(** X5.  [load_conversation] returns [None] exactly when the id has no
    file or its file holds the JSON value [null]; a file that cannot be
    read or parsed makes it raise that exception. *)
Theorem load_conversation_none (conv_id : option str) (fs : store) :
  (load_conversation conv_id fs = Ok VNone <->
   fs !! filename conv_id = None
   \/ fs !! filename conv_id = Some (Json VNone))
  /\ (forall e, fs !! filename conv_id = Some (Unparsable e) ->
                load_conversation conv_id fs = Raise e).
Proof.
  unfold load_conversation. split.
  - destruct (fs !! filename conv_id) as [[e|v]|]; cbn; split;
      try (intros [E|E]; congruence); try discriminate; auto.
    intros [= ->]. auto.
  - now intros e ->.
Qed.

(** ** Listing *)

Lemma rmapM_get_raises (k : str) (dflt : value) l e :
  rmapM (fun x => get x k dflt) l = Raise e ->
  exn_type e = lit "AttributeError".
Proof.
  induction l as [|x l IH]; [discriminate|]. cbn [rmapM].
  destruct x; cbn [get rbind]; try (now intros [= <-]).
  destruct (rmapM _ l); [discriminate|]. intros [= <-]. now apply IH.
Qed.

Lemma rmapM_get_non_object (k : str) (dflt : value) l v :
  v ∈ l -> (forall d, v <> VDict d) ->
  exists e, rmapM (fun x => get x k dflt) l = Raise e.
Proof.
  intros Hin Hv. induction Hin as [v l|v x l Hin IH]; cbn [rmapM].
  - destruct v; cbn [get rbind]; eauto. now destruct (Hv d).
  - destruct (IH Hv) as [e ->].
    destruct (get x k dflt); cbn [rbind]; eauto.
Qed.

(** X6.  A [*.json] file that parses to something other than an object is
    not skipped: the sort key calls [get] on it outside the [try] block and
    [list_conversations] raises [AttributeError]. *)
Theorem list_conversations_non_object
    (sort_other : list (value * value) -> res (list value)) (fs : store)
    (name : str) (v : value) :
  has_suffix (lit ".json") name = true ->
  fs !! name = Some (Json v) ->
  (forall d, v <> VDict d) ->
  exists e, list_conversations sort_other fs = Raise e
            /\ exn_type e = lit "AttributeError".
Proof.
  intros Hs Hl Hv. unfold list_conversations, sort_by_timestamp.
  rewrite read_all_glob.
  assert (Hin : v ∈ readable_records fs)
    by (apply elem_of_readable_records; eauto).
  destruct (rmapM_get_non_object (lit "timestamp") (VStr []) _ v Hin Hv)
    as [e He].
  rewrite He. cbn [rbind]. exists e. split; [reflexivity|].
  eapply rmapM_get_raises. exact He.
Qed.

Lemma list_conversations_non_object_witness :
  exists e,
    list_conversations (fun _ => Ok [])
      (<[lit "x.json" := Json (VList [])]>
         (save_conversation (lit "2024-01-02") (Some (lit "a")) VNone [] ∅))
    = Raise e
    /\ exn_type e = lit "AttributeError".
Proof.
  apply (list_conversations_non_object (fun _ => Ok []) _ (lit "x.json")
           (VList [])).
  - reflexivity.
  - apply lookup_insert_eq.
  - discriminate.
Defined.

(** X7.  In a directory of well-formed records, a conversation just saved
    is listed, next to exactly the records of the other files; and after
    [delete_conversation] the listing holds exactly the records of the files
    that are left. *)
Theorem listing_follows_save_and_delete
    (sort_other : list (value * value) -> res (list value)) (fs : store)
    (now conv_id : str) (title : value) (msgs : list value) :
  well_formed_store fs -> conv_id <> [] ->
  (exists l,
      list_conversations sort_other
        (save_conversation now (Some conv_id) title msgs fs) = Ok l
      /\ record conv_id title msgs now ∈ l
      /\ (forall v, v ∈ l <->
                    v = record conv_id title msgs now
                    \/ exists name,
                        name <> filename (Some conv_id)
                        /\ has_suffix (lit ".json") name = true
                        /\ fs !! name = Some (Json v)))
  /\ (forall gone : option str,
         exists l,
           list_conversations sort_other (delete_conversation gone fs) = Ok l
           /\ (forall v, v ∈ l <->
                         exists name,
                           name <> filename gone
                           /\ has_suffix (lit ".json") name = true
                           /\ fs !! name = Some (Json v))).
Proof.
  intros Hwf Hc. split.
  - rewrite save_truthy by assumption.
    set (r := record conv_id title msgs now).
    destruct (list_conversations_general sort_other
                (<[filename (Some conv_id) := Json r]> fs))
      as (l & E & Hperm & _).
    { intros name v Hs Hl.
      apply lookup_insert_Some in Hl as [[_ [= <-]]|[_ Hl]]; [reflexivity|].
      eapply Hwf; eassumption. }
    assert (Hmem : forall v, v ∈ l <->
              v = r \/ exists name, name <> filename (Some conv_id)
                         /\ has_suffix (lit ".json") name = true
                         /\ fs !! name = Some (Json v)).
    { intros v. rewrite Hperm, elem_of_readable_records. split.
      - intros (name & Hs & Hl).
        apply lookup_insert_Some in Hl as [[_ [= <-]]|[Hne Hl]]; [now left|].
        right. exists name. split_all; congruence.
      - intros [->|(name & Hne & Hs & Hl)].
        + exists (filename (Some conv_id)). split.
          * apply has_suffix_filename.
          * apply lookup_insert_eq.
        + exists name. split; [exact Hs|].
          rewrite lookup_insert_ne by congruence. exact Hl. }
    exists l. split_all; [exact E| |exact Hmem].
    apply Hmem. now left.
  - intros gone. unfold delete_conversation.
    destruct (list_conversations_general sort_other (delete (filename gone) fs))
      as (l & E & Hperm & _).
    { intros name v Hs Hl. apply lookup_delete_Some in Hl as [_ Hl].
      eapply Hwf; eassumption. }
    exists l. split; [exact E|].
    intros v. rewrite Hperm, elem_of_readable_records. split.
    + intros (name & Hs & Hl). apply lookup_delete_Some in Hl as [Hne Hl].
      exists name. split_all; congruence.
    + intros (name & Hne & Hs & Hl). exists name. split; [exact Hs|].
      rewrite lookup_delete_ne by congruence. exact Hl.
Qed.

Lemma listing_follows_save_and_delete_witness :
  exists l,
    list_conversations (fun _ => Ok [])
      (save_conversation (lit "2024-01-02") (Some (lit "a")) VNone [] ∅) = Ok l
    /\ record (lit "a") VNone [] (lit "2024-01-02") ∈ l.
Proof.
  destruct (listing_follows_save_and_delete (fun _ => Ok []) ∅
              (lit "2024-01-02") (lit "a") VNone [])
    as [(l & E & Hin & _) _].
  - intros name v _ Hl. now rewrite lookup_empty in Hl.
  - lit_neq.
  - exists l. split; [exact E|exact Hin].
Defined.

Lemma sort_desc_sorted_input l :
  StronglySorted key_not_less l -> sort_desc l = l.
Proof.
  induction 1 as [|kx l Hs IH Hall]; [reflexivity|].
  cbn [sort_desc foldr]. fold (sort_desc l). rewrite IH.
  destruct l as [|ky l']; [reflexivity|].
  apply insert_desc_equal_keys. now inversion Hall.
Qed.

Lemma sorted_not_older_keys convs :
  StronglySorted not_older convs ->
  StronglySorted key_not_less (map (fun v => (timestamp_of v, v)) convs).
Proof.
  induction 1 as [|v convs Hs IH Hall]; cbn [map]; constructor; [exact IH|].
  apply Forall_forall. intros kv Hin.
  apply list_elem_of_In, in_map_iff in Hin as (v' & <- & Hin).
  apply list_elem_of_In in Hin.
  exact (proj1 (Forall_forall _ _) Hall _ Hin).
Qed.

(** X8.  The sort is stable: a list of records that is already ordered most
    recent first, ties included, comes back exactly as it was, so records
    with equal timestamps keep the order in which they were read. *)
Theorem sort_by_timestamp_stable
    (sort_other : list (value * value) -> res (list value)) convs :
  Forall (fun v => conversation_like v = true) convs ->
  StronglySorted not_older convs ->
  sort_by_timestamp sort_other convs = Ok convs.
Proof.
  intros Hwf Hs. rewrite sort_by_timestamp_ok by assumption.
  rewrite sort_desc_sorted_input by now apply sorted_not_older_keys.
  rewrite map_map. cbn. now rewrite map_id.
Qed.

Lemma sort_by_timestamp_stable_witness :
  sort_by_timestamp (fun _ => Ok [])
    [record (lit "a") VNone [] (lit "2024-01-02");
     record (lit "b") VNone [] (lit "2024-01-02");
     record (lit "c") VNone [] (lit "2024-01-01")]
  = Ok [record (lit "a") VNone [] (lit "2024-01-02");
        record (lit "b") VNone [] (lit "2024-01-02");
        record (lit "c") VNone [] (lit "2024-01-01")].
Proof.
  apply sort_by_timestamp_stable.
  - repeat constructor.
  - repeat constructor.
Defined.

(** ** Sampling, continued *)

Lemma same_float_eq a b : same_float a b = true -> a = b.
Proof.
  destruct a as [s|s| |s m e], b as [s'|s'| |s' m' e']; cbn; try discriminate;
    try reflexivity.
  - intros H. apply Bool.eqb_prop in H. now subst.
  - intros H. apply Bool.eqb_prop in H. now subst.
  - rewrite !andb_true_iff. intros [[Hs Hm] He].
    apply Bool.eqb_prop in Hs. apply Pos.eqb_eq in Hm. apply Z.eqb_eq in He.
    now subst.
Qed.

Lemma SFcompare_Eq_finite f m e :
  SFcompare f (S754_finite false m e) = Some Eq -> f = S754_finite false m e.
Proof.
  destruct f as [s|s| |s m' e']; cbn.
  - destruct s; discriminate.
  - destruct s; discriminate.
  - discriminate.
  - destruct s; [discriminate|].
    destruct (Z.compare_spec e' e) as [->| |]; try discriminate.
    intros [= H]. apply Pos.compare_eq in H. now subst.
Qed.

Lemma SFcompare_Eq_F1 f : SFcompare f F1 = Some Eq -> f = F1.
Proof. apply SFcompare_Eq_finite. Qed.

Lemma SFcompare_F0_Eq f : SFcompare F0 f = Some Eq -> exists s, f = S754_zero s.
Proof.
  destruct f as [s|s| |s m e]; cbn; try discriminate; eauto;
    destruct s; discriminate.
Qed.

Lemma SFleb_cases a b :
  SFleb a b = true -> SFltb a b = true \/ SFcompare a b = Some Eq.
Proof.
  unfold SFleb, SFltb. destruct (SFcompare a b) as [[]|]; auto; discriminate.
Qed.

Lemma clamped_unit f :
  in_unit f -> clamped f = f \/ (f = S754_zero true /\ clamped f = F0).
Proof.
  intros [Hlo Hhi]. unfold clamped, py_max, py_min.
  apply SFleb_cases in Hhi as [Hhi|Hhi].
  - rewrite Hhi. apply SFleb_cases in Hlo as [Hlo|Hlo].
    + rewrite Hlo. now left.
    + destruct (SFcompare_F0_Eq f Hlo) as [[|] ->]; cbn; auto.
  - apply SFcompare_Eq_F1 in Hhi as ->. now left.
Qed.

Lemma clamped_not_negative_zero f : clamped f <> S754_zero true.
Proof.
  unfold clamped, py_max, py_min.
  destruct (SFltb f F1); [|discriminate].
  destruct (SFltb F0 f) eqn:E; [|discriminate].
  intros ->. discriminate E.
Qed.

(** X9.  Clamping leaves a float that lies in [0, 1] as it is, but for
    [-0.0], which becomes [0.0]; hence clamping twice is clamping once, and
    [_sanitize_sampling] passes such a temperature through unchanged. *)
Theorem clamp_keeps_unit_interval
    (float_of_str : str -> res spec_float) (f : spec_float) :
  in_unit f ->
  (clamped f = f \/ (f = S754_zero true /\ clamped f = F0))
  /\ (f <> S754_zero true ->
      _sanitize_sampling float_of_str (VFloat f) VNone = (Some f, None)
      /\ _sanitize_sampling float_of_str VNone (VFloat f) = (None, Some f))
  /\ (forall x, clamped (clamped x) = clamped x).
Proof.
  intros Hf. pose proof (clamped_unit f Hf) as Hc. split_all.
  - exact Hc.
  - intros Hnz. destruct Hc as [Hc|[Hz _]]; [|contradiction].
    unfold _sanitize_sampling, clamp. cbn.
    fold (clamped f). now rewrite Hc.
  - intros x. destruct (clamped_unit (clamped x) (clamped_in_unit x))
      as [H|[H _]]; [exact H|].
    now apply clamped_not_negative_zero in H.
Qed.

Lemma clamp_keeps_unit_interval_witness :
  _sanitize_sampling float_of_str_none (VFloat F0_5) VNone = (Some F0_5, None).
Proof.
  refine (proj1 (proj1 (proj2 (clamp_keeps_unit_interval float_of_str_none F0_5 _)) _)).
  - split; reflexivity.
  - discriminate.
Defined.

Section ModeFacts.

Variable float_of_str : str -> res spec_float.

Lemma create_args_sampling_keys g model_name system convo :
  let temp := if eq_str (current_sampling_mode g) (lit "temperature")
              then current_temperature g else VNone in
  let top_p_val := if eq_str (current_sampling_mode g) (lit "top_p")
                   then current_top_p g else VNone in
  let kwargs := _create_args float_of_str g model_name system convo in
  kwargs !! lit "temperature"
  = option_map VFloat (_sanitize_sampling float_of_str temp top_p_val).1
  /\ kwargs !! lit "top_p"
     = option_map VFloat (_sanitize_sampling float_of_str temp top_p_val).2.
Proof.
  cbn zeta. unfold _create_args.
  assert (Hone : forall t p,
             _sanitize_sampling float_of_str
               (if eq_str (current_sampling_mode g) (lit "temperature")
                then current_temperature g else VNone)
               (if eq_str (current_sampling_mode g) (lit "top_p")
                then current_top_p g else VNone) = (Some t, Some p) -> False).
  { intros t p E. rewrite sanitize_cases in E.
    destruct (numeric float_of_str _); [discriminate E|].
    destruct (numeric float_of_str _); discriminate E. }
  destruct (_sanitize_sampling _ _ _) as [[t|] [p|]]; cbn [fst snd option_map];
    [now destruct (Hone t p)| | |];
    split;
    repeat (first [ rewrite lookup_insert_eq
                  | rewrite lookup_insert_ne by lit_neq
                  | rewrite lookup_empty ]);
    reflexivity.
Qed.

(** X10.  [_create_args] sends the parameter the sampling mode names and
    nothing else: in mode ["temperature"] the clamped temperature and no
    [top_p], in mode ["top_p"] the clamped [top_p] and no temperature; a
    stored value of the other parameter is never sent, also not when the
    named one is missing or not a number; any other mode sends neither. *)
Theorem create_args_follows_mode g model_name system convo :
  let kwargs := _create_args float_of_str g model_name system convo in
  (eq_str (current_sampling_mode g) (lit "temperature") = true ->
   kwargs !! lit "top_p" = None
   /\ (forall f, current_temperature g <> VNone ->
                 py_float float_of_str (current_temperature g) = Ok f ->
                 kwargs !! lit "temperature" = Some (VFloat (clamped f)))
   /\ (numeric float_of_str (current_temperature g) = false ->
       kwargs !! lit "temperature" = None))
  /\ (eq_str (current_sampling_mode g) (lit "top_p") = true ->
      kwargs !! lit "temperature" = None
      /\ (forall f, current_top_p g <> VNone ->
                    py_float float_of_str (current_top_p g) = Ok f ->
                    kwargs !! lit "top_p" = Some (VFloat (clamped f)))
      /\ (numeric float_of_str (current_top_p g) = false ->
          kwargs !! lit "top_p" = None))
  /\ (eq_str (current_sampling_mode g) (lit "temperature") = false ->
      eq_str (current_sampling_mode g) (lit "top_p") = false ->
      kwargs !! lit "temperature" = None /\ kwargs !! lit "top_p" = None).
Proof.
  cbn zeta.
  destruct (create_args_sampling_keys g model_name system convo) as [Ht Hp].
  cbn zeta in Ht, Hp. rewrite Ht, Hp. clear Ht Hp.
  assert (Hexcl : eq_str (current_sampling_mode g) (lit "temperature") = true ->
                  eq_str (current_sampling_mode g) (lit "top_p") = false).
  { destruct (current_sampling_mode g); try reflexivity. cbn.
    intros H. apply bool_decide_eq_true in H. subst. reflexivity. }
  assert (Hnum : forall x f, x <> VNone -> py_float float_of_str x = Ok f ->
                       numeric float_of_str x = true).
  { intros x f Hx Hf. unfold numeric. rewrite Hf. now destruct x. }
  rewrite sanitize_cases. split_all.
  - intros Hm. rewrite Hm, (Hexcl Hm). cbn [numeric]. split_all.
    + destruct (numeric float_of_str (current_temperature g)); reflexivity.
    + intros f Hn Hf. rewrite (Hnum _ f Hn Hf), Hf. reflexivity.
    + intros Hn. rewrite Hn. reflexivity.
  - intros Hm.
    destruct (eq_str (current_sampling_mode g) (lit "temperature")) eqn:Ht.
    { now rewrite (Hexcl eq_refl) in Hm. }
    rewrite Hm. cbn [numeric]. split_all.
    + destruct (numeric float_of_str (current_top_p g)); reflexivity.
    + intros f Hn Hf. rewrite (Hnum _ f Hn Hf), Hf. reflexivity.
    + intros Hn. rewrite Hn. reflexivity.
  - intros Ht Hp. rewrite Ht, Hp. split; reflexivity.
Qed.

End ModeFacts.

(** ** The settings dialog *)

Lemma slider_fraction_checked :
  forallb (fun n => same_float (clamped (slider_fraction (Z.of_nat n)))
                               (slider_fraction (Z.of_nat n)))
          (seq 0 101) = true.
Proof. vm_compute. reflexivity. Qed.

Lemma slider_fraction_clamped v :
  0 <= v <= 100 -> clamped (slider_fraction v) = slider_fraction v.
Proof.
  intros Hv. apply same_float_eq.
  pose proof (proj1 (forallb_forall _ _) slider_fraction_checked
                    (Z.to_nat v)) as H.
  cbv beta in H. rewrite Z2Nat.id in H by lia. apply H. apply in_seq. lia.
Qed.

Lemma sanitize_temperature_only float_of_str f :
  _sanitize_sampling float_of_str (VFloat f) VNone = (Some (clamped f), None).
Proof. reflexivity. Qed.

Lemma sanitize_top_p_only float_of_str f :
  _sanitize_sampling float_of_str VNone (VFloat f) = (None, Some (clamped f)).
Proof. reflexivity. Qed.

(** X11.  After [apply_settings] with both sliders in their range 0..100,
    a request carries exactly one sampling parameter: the one the radio
    button selects, with the value [slider / 100] as it is, the clamp
    changing nothing; and the settings written by [save_settings] load back
    as they were applied. *)
Theorem apply_settings_one_parameter
    (float_of_str : str -> res spec_float) (temp_checked : bool)
    (temp_slider top_p_slider : Z) (model_name system : str)
    (convo : list value) :
  0 <= temp_slider <= 100 -> 0 <= top_p_slider <= 100 ->
  let g := apply_settings temp_checked temp_slider top_p_slider in
  let kwargs := _create_args float_of_str g model_name system convo in
  (if temp_checked
   then kwargs !! lit "temperature"
        = Some (VFloat (slider_fraction temp_slider))
        /\ kwargs !! lit "top_p" = None
   else kwargs !! lit "top_p"
        = Some (VFloat (slider_fraction top_p_slider))
        /\ kwargs !! lit "temperature" = None)
  /\ (forall g0, load_settings (Some (save_settings g)) g0 = Ok g).
Proof.
  intros Ht Hp. cbn zeta. split.
  - destruct (create_args_sampling_keys float_of_str
                (apply_settings temp_checked temp_slider top_p_slider)
                model_name system convo) as [Et Ep].
    cbn zeta in Et, Ep. rewrite Et, Ep. clear Et Ep.
    unfold apply_settings.
    cbn [current_sampling_mode current_temperature current_top_p].
    destruct temp_checked.
    + change (eq_str (VStr (lit "temperature")) (lit "temperature")) with true.
      change (eq_str (VStr (lit "temperature")) (lit "top_p")) with false.
      cbn iota. rewrite sanitize_temperature_only. cbn [fst snd option_map].
      now rewrite slider_fraction_clamped.
    + change (eq_str (VStr (lit "top_p")) (lit "temperature")) with false.
      change (eq_str (VStr (lit "top_p")) (lit "top_p")) with true.
      cbn iota. rewrite sanitize_top_p_only. cbn [fst snd option_map].
      now rewrite slider_fraction_clamped.
  - intros g0. now destruct temp_checked.
Qed.

Lemma apply_settings_one_parameter_witness :
  _create_args float_of_str_none (apply_settings false 90 35) MODEL
    SYSTEM_PROMPT [] !! lit "top_p"
  = Some (VFloat (slider_fraction 35))
  /\ _create_args float_of_str_none (apply_settings false 90 35) MODEL
       SYSTEM_PROMPT [] !! lit "temperature" = None.
Proof.
  refine (proj1 (apply_settings_one_parameter float_of_str_none false 90 35
                   MODEL SYSTEM_PROMPT [] _ _)); lia.
Defined.

(** ** Titles, continued *)

Lemma length_lstrip s : (length (lstrip s) <= length s)%nat.
Proof.
  induction s as [|c s IH]; cbn [lstrip]; [lia|].
  destruct (is_space c); cbn [length]; lia.
Qed.

Lemma length_strip s : (length (strip s) <= length s)%nat.
Proof.
  unfold strip, rstrip. rewrite length_rev.
  etransitivity; [apply length_lstrip|]. rewrite length_rev.
  apply length_lstrip.
Qed.

Lemma title_of_content_bounds content t :
  title_of_content content = Ok t -> t <> [] /\ (length t <= 43)%nat.
Proof.
  destruct content; try discriminate. rewrite title_of_user_content.
  intros [= <-]. unfold derived_title.
  assert (H40 : (length (strip (take 40 s)) <= 40)%nat).
  { etransitivity; [apply length_strip|]. rewrite length_take. lia. }
  assert (H3 : length (lit "...") = 3%nat) by reflexivity.
  assert (H8 : length NEW_CHAT = 8%nat) by reflexivity.
  destruct (40 <? length s)%nat.
  - destruct (strip (take 40 s) ++ lit "...") eqn:E.
    + split; [|lia]. intros H. rewrite H in H8. discriminate H8.
    + rewrite <- E. split; [now rewrite E|]. rewrite length_app. lia.
  - rewrite app_nil_r. destruct (strip (take 40 s)) eqn:E.
    + split; [|lia]. intros H. rewrite H in H8. discriminate H8.
    + split; [discriminate|]. lia.
Qed.

(** X12.  Whatever the message list, a title that [get_conversation_title]
    returns is never empty and never longer than 43 characters. *)
Theorem title_never_empty_nor_long msgs t :
  get_conversation_title msgs = Ok t ->
  t <> [] /\ (length t <= 43)%nat.
Proof.
  induction msgs as [|msg rest IH]; cbn [get_conversation_title].
  - intros [= <-]. split; [lit_neq|]. vm_compute. lia.
  - destruct (get msg (lit "role") VNone) as [role|e]; cbn [rbind];
      [|discriminate].
    destruct (eq_str role (lit "user")); [|exact IH].
    destruct (get msg (lit "content") (VStr [])) as [content|e]; cbn [rbind];
      [|discriminate].
    apply title_of_content_bounds.
Qed.

Lemma title_never_empty_nor_long_witness :
  repeat 97%N 40 ++ lit "..." <> [] /\
  (length (repeat 97%N 40 ++ lit "...") <= 43)%nat.
Proof.
  apply (title_never_empty_nor_long [message (lit "user") (repeat 97%N 41)]).
  reflexivity.
Defined.

(** ** The worker on the message lists the client builds *)

Lemma chat_app a b : chat (a ++ b) = chat a ++ chat b.
Proof. apply map_app. Qed.

Lemma sent_app a b : sent (a ++ b) = sent a ++ sent b.
Proof. apply List.filter_app. Qed.

Lemma system_texts_app a b :
  system_texts (a ++ b) = system_texts a ++ system_texts b.
Proof. unfold system_texts. now rewrite List.filter_app, map_app. Qed.

Lemma subscript_message_role role content :
  subscript (message role content) (lit "role") = Ok (VStr role).
Proof. reflexivity. Qed.

Lemma subscript_message_content role content :
  subscript (message role content) (lit "content") = Ok (VStr content).
Proof. reflexivity. Qed.

Lemma get_message_role role content d :
  get (message role content) (lit "role") d = Ok (VStr role).
Proof. reflexivity. Qed.

Lemma get_message_content role content d :
  get (message role content) (lit "content") d = Ok (VStr content).
Proof. reflexivity. Qed.

Lemma system_contents_chat l :
  system_contents (chat l) = Ok (map VStr (system_texts l)).
Proof.
  induction l as [|[role content] l IH]; [reflexivity|].
  change (chat ((role, content) :: l)) with (message role content :: chat l).
  cbn [system_contents]. rewrite subscript_message_role. cbn [rbind eq_str].
  unfold system_texts. cbn [List.filter fst].
  destruct (bool_decide (role = lit "system")).
  - rewrite subscript_message_content. cbn [rbind]. rewrite IH. reflexivity.
  - exact IH.
Qed.

Lemma join_from_strings i sep ss :
  join_from i sep (map VStr ss) = Ok (join_str sep ss).
Proof.
  revert i. induction ss as [|s ss IH]; intros i; [reflexivity|].
  cbn [map join_from]. rewrite IH. cbn [rbind]. now destruct ss.
Qed.

Lemma transcript_chat l : transcript (chat l) = Ok (chat (sent l)).
Proof.
  induction l as [|[role content] l IH]; [reflexivity|].
  change (chat ((role, content) :: l)) with (message role content :: chat l).
  cbn [transcript]. rewrite subscript_message_role. cbn [rbind eq_str].
  rewrite IH. cbn [rbind sent List.filter fst].
  now destruct (bool_decide (role = lit "user")
                || bool_decide (role = lit "assistant")).
Qed.

Lemma sent_exchanges texts replies :
  sent (exchanges texts replies) = exchanges texts replies.
Proof.
  revert replies. induction texts as [|t texts IH]; intros [|r replies];
    try reflexivity.
  cbn [exchanges]. unfold sent in *. cbn [List.filter fst].
  rewrite IH. reflexivity.
Qed.

Lemma system_texts_exchanges texts replies :
  system_texts (exchanges texts replies) = [].
Proof.
  revert replies. induction texts as [|t texts IH]; intros [|r replies];
    try reflexivity.
  cbn [exchanges]. unfold system_texts in *. cbn [List.filter fst].
  exact (IH replies).
Qed.

Section ChatFacts.

Variable float_of_str : str -> res spec_float.
Variable client : gmap str value -> stream.
Variable g : sampling.

Lemma request_chat l :
  request float_of_str g (chat l)
  = Ok (_create_args float_of_str g MODEL (system_of l) (chat (sent l))).
Proof.
  unfold request. rewrite system_contents_chat. cbn [rbind].
  unfold py_join. rewrite join_from_strings. cbn [rbind].
  rewrite transcript_chat. reflexivity.
Qed.

Lemma run_chat text l sigs :
  exists r,
    run float_of_str client g text (Worker (chat l) sigs)
    = (Ok tt,
       Worker (chat (l ++ [(lit "user", text); (lit "assistant", r)]))
              (sigs
               ++ map text_chunk
                    (turn float_of_str client g
                       (chat (l ++ [(lit "user", text)]))).1
               ++ [terminal (turn float_of_str client g
                               (chat (l ++ [(lit "user", text)]))).2]))
    /\ r = reply (turn float_of_str client g
                    (chat (l ++ [(lit "user", text)]))).2.
Proof.
  eexists. split; [|reflexivity].
  rewrite run_turn. cbn [messages_list signals]. rewrite !chat_app.
  reflexivity.
Qed.

(** X13.  On a message list built by the client itself the request can
    always be assembled: the system prompt is the system messages' texts
    joined by newlines, or [SYSTEM_PROMPT] when that is empty; [messages]
    holds the user and assistant messages in their order and nothing else;
    the model is [MODEL]. *)
Theorem request_of_chat l :
  exists kwargs,
    request float_of_str g (chat l) = Ok kwargs
    /\ kwargs !! lit "system"
       = Some (VStr (match join_str NL (system_texts l) with
                     | [] => SYSTEM_PROMPT
                     | joined => joined
                     end))
    /\ kwargs !! lit "messages" = Some (VList (chat (sent l)))
    /\ kwargs !! lit "model" = Some (VStr MODEL).
Proof.
  eexists. split; [apply request_chat|].
  pose proof (create_args_keys float_of_str g MODEL (system_of l)
                (chat (sent l))) as (_ & Hm & Hs & Hc & _).
  split_all; try assumption.
  rewrite Hs. unfold system_of. now destruct (join_str NL (system_texts l)).
Qed.

(** X14.  Turns taken one after the other on a message list built by the
    client add, per turn, the user message and one assistant message, in
    that order, and emit one terminal signal each. *)
Theorem turns_extend_chat texts l sigs :
  exists replies,
    length replies = length texts
    /\ messages_list (turns float_of_str client g texts (Worker (chat l) sigs))
       = chat (l ++ exchanges texts replies)
    /\ length (filter (fun e => is_terminal e = true)
                 (signals (turns float_of_str client g texts
                             (Worker (chat l) sigs))))
       = (length (filter (fun e => is_terminal e = true) sigs)
          + length texts)%nat.
Proof.
  revert l sigs. induction texts as [|text texts IH]; intros l sigs.
  - exists []. cbn [turns exchanges messages_list signals length].
    rewrite app_nil_r. split_all; [reflexivity..|lia].
  - cbn [turns]. destruct (run_chat text l sigs) as (r & -> & _).
    cbn [snd].
    destruct (IH (l ++ [(lit "user", text); (lit "assistant", r)])
                 (sigs
                  ++ map text_chunk
                       (turn float_of_str client g
                          (chat (l ++ [(lit "user", text)]))).1
                  ++ [terminal (turn float_of_str client g
                                  (chat (l ++ [(lit "user", text)]))).2]))
      as (replies & Hlen & Hm & Hs).
    exists (r :: replies). split_all.
    + cbn [length]. now rewrite Hlen.
    + rewrite Hm. cbn [exchanges]. now rewrite <- app_assoc.
    + rewrite Hs. rewrite filter_app, length_app, one_terminal.
      cbn [length]. lia.
Qed.

(** X15.  In a conversation begun by [start_new_chat], the request of
    every further turn carries [SYSTEM_PROMPT] as system prompt and as
    messages the exchanges so far, user and assistant alternating, ended
    by the new user text. *)
Theorem fresh_chat_request uuid texts text :
  exists replies kwargs,
    length replies = length texts
    /\ request float_of_str g
         (messages_list
            (turns float_of_str client g texts
               (Worker (messages (start_new_chat uuid)) []))
          ++ [message (lit "user") text])
       = Ok kwargs
    /\ kwargs !! lit "system" = Some (VStr SYSTEM_PROMPT)
    /\ kwargs !! lit "messages"
       = Some (VList (chat (exchanges texts replies ++ [(lit "user", text)]))).
Proof.
  assert (IH : forall texts l sigs, exists replies,
             length replies = length texts
             /\ messages_list (turns float_of_str client g texts
                                 (Worker (chat l) sigs))
                = chat (l ++ exchanges texts replies)).
  { clear. induction texts as [|t texts IH]; intros l sigs.
    - exists []. cbn [turns exchanges messages_list]. now rewrite app_nil_r.
    - cbn [turns]. destruct (run_chat t l sigs) as (r & -> & _). cbn [snd].
      destruct (IH (l ++ [(lit "user", t); (lit "assistant", r)])
                   (sigs
                    ++ map text_chunk
                         (turn float_of_str client g
                            (chat (l ++ [(lit "user", t)]))).1
                    ++ [terminal (turn float_of_str client g
                                    (chat (l ++ [(lit "user", t)]))).2]))
        as (replies & Hlen & Hm).
      exists (r :: replies). split; [cbn [length]; now rewrite Hlen|].
      rewrite Hm. cbn [exchanges]. now rewrite <- app_assoc. }
  destruct (IH texts [(lit "system", SYSTEM_PROMPT)] [])
    as (replies & Hlen & Hm).
  change (messages (start_new_chat uuid))
    with (chat [(lit "system", SYSTEM_PROMPT)]).
  rewrite Hm.
  change [message (lit "user") text] with (chat [(lit "user", text)]).
  rewrite <- chat_app, request_chat.
  exists replies. eexists. split; [exact Hlen|]. split; [reflexivity|].
  pose proof (create_args_keys float_of_str g MODEL
                (system_of (([(lit "system", SYSTEM_PROMPT)]
                             ++ exchanges texts replies)
                            ++ [(lit "user", text)]))
                (chat (sent (([(lit "system", SYSTEM_PROMPT)]
                              ++ exchanges texts replies)
                             ++ [(lit "user", text)]))))
    as (_ & _ & Hs & Hc & _).
  split.
  - rewrite Hs. unfold system_of.
    rewrite !system_texts_app, system_texts_exchanges. reflexivity.
  - rewrite Hc. rewrite !sent_app, sent_exchanges. reflexivity.
Qed.

(** X16.  When the backend fails in a turn, the error text recorded as
    that turn's assistant message is sent to the backend, as an assistant
    message, in the request of the next turn. *)
Theorem error_reply_is_sent_back l sigs text1 text2 kwargs1 e :
  request float_of_str g (chat (l ++ [(lit "user", text1)])) = Ok kwargs1 ->
  failure (client kwargs1) = Some e ->
  exists kwargs2,
    request float_of_str g
      (messages_list
         (run float_of_str client g text1 (Worker (chat l) sigs)).2
       ++ [message (lit "user") text2])
    = Ok kwargs2
    /\ kwargs2 !! lit "messages"
       = Some (VList (chat (sent l)
                      ++ [message (lit "user") text1;
                          message (lit "assistant") (error_msg e);
                          message (lit "user") text2])).
Proof.
  intros Hreq Hfail.
  destruct (run_chat text1 l sigs) as (r & -> & Hr). cbn [snd messages_list].
  unfold turn in Hr. rewrite Hreq in Hr. cbn [snd] in Hr.
  rewrite Hfail in Hr. cbn [reply] in Hr. subst r.
  change [message (lit "user") text2] with (chat [(lit "user", text2)]).
  rewrite <- chat_app, request_chat. eexists. split; [reflexivity|].
  pose proof (create_args_keys float_of_str g MODEL
                (system_of ((l ++ [(lit "user", text1);
                                   (lit "assistant", error_msg e)])
                            ++ [(lit "user", text2)]))
                (chat (sent ((l ++ [(lit "user", text1);
                                    (lit "assistant", error_msg e)])
                             ++ [(lit "user", text2)]))))
    as (_ & _ & _ & Hc & _).
  rewrite Hc, !sent_app, !chat_app. rewrite <- app_assoc. reflexivity.
Qed.

End ChatFacts.

Lemma error_reply_is_sent_back_witness :
  exists kwargs2,
    request float_of_str_none initial_sampling
      (messages_list
         (run float_of_str_none
              (fun _ => Fail (Exn (lit "APIConnectionError")
                                  (lit "Connection error.")))
              initial_sampling (lit "hi")
              (Worker (chat [(lit "system", SYSTEM_PROMPT)]) [])).2
       ++ [message (lit "user") (lit "again")])
    = Ok kwargs2
    /\ kwargs2 !! lit "messages"
       = Some (VList (chat (sent [(lit "system", SYSTEM_PROMPT)])
                      ++ [message (lit "user") (lit "hi");
                          message (lit "assistant")
                            (error_msg (Exn (lit "APIConnectionError")
                                            (lit "Connection error.")));
                          message (lit "user") (lit "again")])).
Proof.
  apply (error_reply_is_sent_back float_of_str_none
           (fun _ => Fail (Exn (lit "APIConnectionError")
                               (lit "Connection error.")))
           initial_sampling [(lit "system", SYSTEM_PROMPT)] []
           (lit "hi") (lit "again")
           (_create_args float_of_str_none initial_sampling MODEL
              SYSTEM_PROMPT [message (lit "user") (lit "hi")])
           (Exn (lit "APIConnectionError") (lit "Connection error.")));
    reflexivity.
Defined.

(** ** Sending a message *)

Lemma lstrip_blank s :
  lstrip s = [] <-> Forall (fun c => is_space c = true) s.
Proof.
  induction s as [|c s IH]; cbn [lstrip].
  - split; [constructor|reflexivity].
  - destruct (is_space c) eqn:E.
    + rewrite IH. split; [now constructor|now inversion 1].
    + split; [discriminate|]. inversion 1; congruence.
Qed.

Lemma lstrip_suffix s :
  exists pre, s = pre ++ lstrip s /\ Forall (fun c => is_space c = true) pre.
Proof.
  induction s as [|c s (pre & Hs & Hpre)]; cbn [lstrip].
  - now exists [].
  - destruct (is_space c) eqn:E.
    + exists (c :: pre). split; [cbn [app]; congruence|now constructor].
    + now exists [].
Qed.

Lemma lstrip_head s c : head (lstrip s) = Some c -> is_space c = false.
Proof.
  induction s as [|d s IH]; cbn [lstrip]; [discriminate|].
  destruct (is_space d) eqn:E; [exact IH|]. cbn [head]. congruence.
Qed.

Lemma lstrip_last s :
  lstrip s <> [] -> last (lstrip s) = last s.
Proof.
  intros H. destruct (lstrip_suffix s) as (pre & Hs & _).
  rewrite Hs at 2. rewrite last_app.
  destruct (last (lstrip s)) eqn:E; [reflexivity|].
  apply last_None in E. contradiction.
Qed.

Lemma head_of_rev (s : str) : head (rev s) = last s.
Proof. rewrite rev_alt. apply head_reverse. Qed.

Lemma last_of_rev (s : str) : last (rev s) = head s.
Proof. rewrite rev_alt. apply last_reverse. Qed.

Lemma strip_blank s :
  strip s = [] <-> Forall (fun c => is_space c = true) s.
Proof.
  unfold strip, rstrip. split.
  - intros H. apply (f_equal (@rev N)) in H. rewrite rev_involutive in H.
    cbn [rev] in H. apply lstrip_blank in H.
    apply Forall_rev in H. rewrite rev_involutive in H.
    destruct (lstrip_suffix s) as (pre & Hs & Hpre).
    rewrite Hs. now apply Forall_app.
  - intros H. apply lstrip_blank in H. rewrite H. reflexivity.
Qed.

Lemma strip_ends s c :
  (head (strip s) = Some c -> is_space c = false)
  /\ (last (strip s) = Some c -> is_space c = false).
Proof.
  unfold strip, rstrip. split.
  - rewrite head_of_rev. intros H.
    rewrite lstrip_last in H by (intros E; now rewrite E in H).
    rewrite last_of_rev in H. now apply lstrip_head in H.
  - rewrite last_of_rev. apply lstrip_head.
Qed.

Section SendFacts.

Variable float_of_str : str -> res spec_float.
Variable client : gmap str value -> stream.
Variable g : sampling.

Lemma send_message_run input w :
  strip input <> [] ->
  send_message float_of_str client g input w
  = run float_of_str client g (strip input) w.
Proof. unfold send_message. now destruct (strip input). Qed.

(** X17.  [send_message] on an input of whitespace only leaves the message
    list and the signals as they are.  On any other input the turn is run
    on the input without its leading and trailing whitespace: the user
    message recorded neither starts nor ends with a whitespace character. *)
Theorem send_message_strips_input input w :
  (Forall (fun c => is_space c = true) input ->
   send_message float_of_str client g input w = (Ok tt, w))
  /\ (~ Forall (fun c => is_space c = true) input ->
      exists text r,
        messages_list (send_message float_of_str client g input w).2
        = messages_list w
          ++ [message (lit "user") text; message (lit "assistant") r]
        /\ text = strip input
        /\ text <> []
        /\ (forall c, head text = Some c -> is_space c = false)
        /\ (forall c, last text = Some c -> is_space c = false)).
Proof.
  split.
  - intros H. apply strip_blank in H. unfold send_message. now rewrite H.
  - intros H. assert (Hne : strip input <> [])
      by (intros E; apply H, strip_blank, E).
    rewrite send_message_run by assumption.
    eexists _, _. split; [apply run_messages|].
    split; [reflexivity|]. split; [assumption|].
    split; intros c; apply strip_ends.
Qed.

(** X18.  The first message of a new chat is persisted with its reply:
    after [send_message] and the automatic save that follows the terminal
    signal, the stored conversation is found under the chat's id, holds the
    system message, the user message and the assistant message, and is
    titled after the user text. *)
Theorem first_turn_is_persisted uuid uuid' now input fs :
  uuid <> [] -> strip input <> [] ->
  exists r s fs',
    let msgs := [message (lit "system") SYSTEM_PROMPT;
                 message (lit "user") (strip input);
                 message (lit "assistant") r] in
    messages_list
      (send_message float_of_str client g input
         (Worker (messages (start_new_chat uuid)) [])).2 = msgs
    /\ auto_save_current_conversation now uuid'
         (Session (current_conversation_id (start_new_chat uuid))
                  (current_conversation_title (start_new_chat uuid)) msgs) fs
       = Ok (s, fs')
    /\ s = Session (Some uuid) (VStr (derived_title (strip input))) msgs
    /\ load_conversation (Some uuid) fs'
       = Ok (record uuid (VStr (derived_title (strip input))) msgs now).
Proof.
  intros Hid Hne. rewrite send_message_run by assumption.
  assert (Ht : forall r,
             get_conversation_title
               [message (lit "system") SYSTEM_PROMPT;
                message (lit "user") (strip input);
                message (lit "assistant") r]
             = Ok (derived_title (strip input))).
  { intros r.
    apply (title_first_user [message (lit "system") SYSTEM_PROMPT]
             (message (lit "user") (strip input)) (strip input)
             [message (lit "assistant") r]).
    - constructor; [|constructor]. exists (VStr (lit "system")).
      split; reflexivity.
    - exists (VStr (lit "user")). split_all; reflexivity. }
  rewrite run_messages. cbn [messages_list start_new_chat messages
    current_conversation_id current_conversation_title app].
  eexists _, _, _. cbn zeta. split; [reflexivity|].
  unfold auto_save_current_conversation.
  cbn [current_conversation_id current_conversation_title messages eq_str].
  rewrite bool_decide_eq_true_2 by reflexivity.
  rewrite Ht. cbn [rbind]. destruct uuid as [|c uuid]; [congruence|].
  cbn [falsy].
  split; [reflexivity|]. split; [reflexivity|].
  apply load_after_save. discriminate.
Qed.

End SendFacts.

Lemma send_message_strips_input_witness :
  send_message float_of_str_none (fun _ => EndOfStream) initial_sampling
    [32%N; 10%N] (Worker [] [])
  = (Ok tt, Worker [] []).
Proof.
  apply (send_message_strips_input float_of_str_none (fun _ => EndOfStream)
           initial_sampling [32%N; 10%N] (Worker [] [])).
  repeat constructor.
Defined.

Lemma first_turn_is_persisted_witness :
  exists r s fs',
    let msgs := [message (lit "system") SYSTEM_PROMPT;
                 message (lit "user") (strip (lit " hi "));
                 message (lit "assistant") r] in
    messages_list
      (send_message float_of_str_none (fun _ => Delta (lit "Hello") EndOfStream)
         initial_sampling (lit " hi ")
         (Worker (messages (start_new_chat (lit "c1"))) [])).2 = msgs
    /\ auto_save_current_conversation (lit "2024-01-01T00:00:00") (lit "c2")
         (Session (current_conversation_id (start_new_chat (lit "c1")))
                  (current_conversation_title (start_new_chat (lit "c1")))
                  msgs) ∅
       = Ok (s, fs')
    /\ s = Session (Some (lit "c1"))
                   (VStr (derived_title (strip (lit " hi ")))) msgs
    /\ load_conversation (Some (lit "c1")) fs'
       = Ok (record (lit "c1") (VStr (derived_title (strip (lit " hi "))))
                    msgs (lit "2024-01-01T00:00:00")).
Proof.
  apply (first_turn_is_persisted float_of_str_none
           (fun _ => Delta (lit "Hello") EndOfStream) initial_sampling
           (lit "c1") (lit "c2") (lit "2024-01-01T00:00:00") (lit " hi ") ∅);
    lit_neq.
Defined.

(** ** The token counter *)

Lemma sum_list_append (a b : list nat) :
  sum_list (a ++ b) = (sum_list a + sum_list b)%nat.
Proof. induction a as [|x a IH]; [reflexivity|]. simpl. rewrite IH. lia. Qed.

Section CounterFacts.

Variable TIKTOKEN_AVAILABLE : bool.
Variable tiktoken_encode : str -> res (list N).
Variable estimate_other : value -> res nat.

Lemma total_tokens_chat l :
  total_tokens TIKTOKEN_AVAILABLE tiktoken_encode estimate_other (chat l)
  = Ok (sum_list
          (map (fun rc => estimate_tokens TIKTOKEN_AVAILABLE tiktoken_encode rc.2)
               (sent l))).
Proof.
  induction l as [|[role content] l IH]; [reflexivity|].
  change (chat ((role, content) :: l)) with (message role content :: chat l).
  cbn [total_tokens]. rewrite get_message_role. cbn [rbind eq_str].
  unfold sent in *. cbn [List.filter fst].
  destruct (bool_decide (role = lit "user")
            || bool_decide (role = lit "assistant")).
  - rewrite get_message_content. cbn [rbind]. rewrite IH. reflexivity.
  - cbn [rbind]. rewrite IH. reflexivity.
Qed.

(** X19.  On a message list built by the client the token label shows the
    sum of the estimates of the user and assistant texts; system messages
    and other roles count nothing.  A turn raises the total by the
    estimates of the user text and of the reply. *)
Theorem token_counter_of_chat l :
  update_token_counter TIKTOKEN_AVAILABLE tiktoken_encode estimate_other (chat l)
  = Ok (lit "Tokens: ~"
        ++ lit (pretty
                  (sum_list
                     (map (fun rc => estimate_tokens TIKTOKEN_AVAILABLE
                                       tiktoken_encode rc.2)
                          (sent l)))))
  /\ (forall float_of_str client g text sigs,
         exists r n,
           messages_list
             (run float_of_str client g text (Worker (chat l) sigs)).2
           = chat l ++ [message (lit "user") text; message (lit "assistant") r]
           /\ total_tokens TIKTOKEN_AVAILABLE tiktoken_encode estimate_other
                (chat l) = Ok n
           /\ total_tokens TIKTOKEN_AVAILABLE tiktoken_encode estimate_other
                (messages_list
                   (run float_of_str client g text (Worker (chat l) sigs)).2)
              = Ok (n + estimate_tokens TIKTOKEN_AVAILABLE tiktoken_encode text
                    + estimate_tokens TIKTOKEN_AVAILABLE tiktoken_encode r)%nat).
Proof.
  split.
  - unfold update_token_counter. now rewrite total_tokens_chat.
  - intros float_of_str client g text sigs.
    destruct (run_chat float_of_str client g text l sigs) as (r & -> & _).
    cbn [snd messages_list]. exists r. eexists.
    split; [now rewrite chat_app|].
    split; [apply total_tokens_chat|].
    change [(lit "user", text); (lit "assistant", r)]
      with (exchanges [text] [r]).
    rewrite total_tokens_chat, sent_app, sent_exchanges, map_app,
      sum_list_append.
    cbn [exchanges map snd]. f_equal. simpl. lia.
Qed.

(** X20.  Without tiktoken the estimate of a concatenation is the sum of
    the two estimates or one more, and a text gets the estimate 0 exactly
    when it is shorter than four characters. *)
Theorem heuristic_estimate_nearly_additive (a b : str) :
  (estimate_tokens false tiktoken_encode a
   + estimate_tokens false tiktoken_encode b
   <= estimate_tokens false tiktoken_encode (a ++ b)
   <= estimate_tokens false tiktoken_encode a
      + estimate_tokens false tiktoken_encode b + 1)%nat
  /\ (estimate_tokens false tiktoken_encode a = 0%nat
      <-> (length a < 4)%nat).
Proof.
  unfold estimate_tokens. rewrite length_app.
  pose proof (Nat.div_mod_eq (length a) 4).
  pose proof (Nat.div_mod_eq (length b) 4).
  pose proof (Nat.div_mod_eq (length a + length b) 4).
  pose proof (Nat.mod_upper_bound (length a) 4).
  pose proof (Nat.mod_upper_bound (length b) 4).
  pose proof (Nat.mod_upper_bound (length a + length b) 4).
  lia.
Qed.

End CounterFacts.

(** ** The search filter *)

Lemma filter_sublist {A} (f : A -> bool) (l : list A) :
  sublist (List.filter f l) l.
Proof.
  induction l as [|x l IH]; cbn [List.filter]; [constructor|].
  destruct (f x); now constructor.
Qed.

Section SearchFacts.

Variable lower : str -> str.

Lemma filter_conversations_ok q cs r :
  filter_conversations lower q cs = Ok r ->
  r = List.filter (kept lower q) cs.
Proof.
  revert r. induction cs as [|c cs IH]; intros r; cbn [filter_conversations].
  - now intros [= <-].
  - cbn [List.filter].
    assert (Hk : kept lower q c
                 = match matches lower q c with Ok true => true | _ => false end)
      by reflexivity.
    rewrite Hk. clear Hk.
    destruct (matches lower q c) as [keep|e]; cbn [rbind]; [|discriminate].
    destruct (filter_conversations lower q cs) as [rest|e]; cbn [rbind];
      [|discriminate].
    intros [= <-]. rewrite (IH rest eq_refl). now destruct keep.
Qed.

Lemma filter_conversations_raises q cs c e :
  c ∈ cs -> matches lower q c = Raise e ->
  exists e', filter_conversations lower q cs = Raise e'.
Proof.
  intros Hin Hc. induction Hin as [c cs|c x cs Hin IH];
    cbn [filter_conversations].
  - rewrite Hc. cbn [rbind]. eauto.
  - destruct (IH Hc) as [e' ->].
    destruct (matches lower q x); cbn [rbind]; eauto.
Qed.

(** X21.  With a blank search box the listing is shown as it is.  With a
    query, what is shown is the listing with the conversations that do not
    match left out: the others stay, in the order of the listing. *)
Theorem search_keeps_matching entry_text conversations :
  (lower [] = [] ->
   Forall (fun c => is_space c = true) entry_text ->
   search lower entry_text conversations = Ok conversations)
  /\ (forall shown,
         lower (strip entry_text) <> [] ->
         search lower entry_text conversations = Ok shown ->
         shown = List.filter (kept lower (lower (strip entry_text)))
                             conversations
         /\ sublist shown conversations).
Proof.
  split.
  - intros Hl Hb. apply strip_blank in Hb. unfold search.
    now rewrite Hb, Hl.
  - intros shown Hq. unfold search.
    destruct (lower (strip entry_text)) as [|ch q] eqn:E; [congruence|].
    intros H. apply filter_conversations_ok in H. subst shown.
    split; [reflexivity|apply filter_sublist].
Qed.

(** X22.  With a query in the search box, one listed conversation whose
    title is not a string makes the whole refresh raise: nothing is
    shown. *)
Theorem search_raises_on_title entry_text conversations c title :
  lower (strip entry_text) <> [] ->
  c ∈ conversations ->
  get c (lit "title") (VStr []) = Ok title ->
  (forall s, title <> VStr s) ->
  exists e, search lower entry_text conversations = Raise e.
Proof.
  intros Hq Hin Hget Hns. unfold search.
  destruct (lower (strip entry_text)) as [|ch q] eqn:E; [congruence|].
  assert (Hm : exists e, matches lower (ch :: q) c = Raise e).
  { unfold matches. rewrite Hget. cbn [rbind].
    destruct title; cbn [py_lower rbind]; eauto. now destruct (Hns s). }
  destruct Hm as [e Hm]. exact (filter_conversations_raises _ _ _ _ Hin Hm).
Qed.

End SearchFacts.

Lemma search_raises_on_title_witness :
  exists e,
    search (fun s => s) (lit "hi")
      [record (lit "c1") VNone [] (lit "2024-01-01T00:00:00")]
    = Raise e.
Proof.
  apply (search_raises_on_title (fun s => s) (lit "hi")
           [record (lit "c1") VNone [] (lit "2024-01-01T00:00:00")]
           (record (lit "c1") VNone [] (lit "2024-01-01T00:00:00")) VNone).
  - lit_neq.
  - apply list_elem_of_here.
  - reflexivity.
  - discriminate.
Defined.

(** ** Export *)

Section ExportFacts.

Variable format_other : value -> str.

Lemma write_messages_chat l written :
  write_messages format_other (chat l) written
  = (Ok tt, written ++ concat (map export_section (sent l))).
Proof.
  revert written. induction l as [|[role content] l IH]; intros written.
  - cbn. now rewrite app_nil_r.
  - change (chat ((role, content) :: l)) with (message role content :: chat l).
    cbn [write_messages]. rewrite get_message_role, get_message_content.
    cbn [rbind eq_str format_value]. unfold sent in *.
    cbn [List.filter fst].
    destruct (bool_decide (role = lit "user")) eqn:Eu; cbn [orb].
    + rewrite IH. cbn [map concat]. unfold export_section at 2.
      cbn [fst snd]. rewrite Eu. now rewrite <- !app_assoc.
    + destruct (bool_decide (role = lit "assistant")) eqn:Ea.
      * rewrite IH. cbn [map concat]. unfold export_section at 2.
        cbn [fst snd]. rewrite Eu. now rewrite <- !app_assoc.
      * apply IH.
Qed.

Lemma write_messages_app a b written :
  write_messages format_other (a ++ b) written
  = match write_messages format_other a written with
    | (Ok _, written') => write_messages format_other b written'
    | (Raise e, written') => (Raise e, written')
    end.
Proof.
  revert written. induction a as [|m a IH]; intros written; [reflexivity|].
  change ((m :: a) ++ b) with (m :: (a ++ b)). cbn [write_messages].
  destruct (get m (lit "role") VNone) as [role|e]; cbn [rbind];
    [|reflexivity].
  destruct (get m (lit "content") (VStr [])) as [content|e]; cbn [rbind];
    [|reflexivity].
  destruct (eq_str role (lit "user")); [apply IH|].
  destruct (eq_str role (lit "assistant")); apply IH.
Qed.

(** X23.  The export of a stored conversation is the header with title and
    date followed by one section per user or assistant message, in the
    order of the conversation; system messages and messages of other roles
    are left out. *)
Theorem export_of_chat now conv_id title l timestamp :
  export_conversation format_other now
    (record conv_id (VStr title) (chat l) timestamp)
  = (Ok tt, export_header title now ++ concat (map export_section (sent l))).
Proof.
  unfold export_conversation.
  change (get (record conv_id (VStr title) (chat l) timestamp) (lit "title")
              (VStr (lit "Conversation"))) with (Ok (VStr title)).
  change (get (record conv_id (VStr title) (chat l) timestamp) (lit "messages")
              (VList [])) with (Ok (VList (chat l))).
  cbn [rbind iterate format_value]. rewrite write_messages_chat.
  unfold export_header. now rewrite <- !app_assoc.
Qed.

(** X24.  A message that is not an object stops the export with
    [AttributeError]: the file is left with the header and the sections of
    the messages before it, and nothing of the messages after it. *)
Theorem export_stops_at_non_object now conv_id title l bad rest timestamp :
  (forall d, bad <> VDict d) ->
  exists e,
    export_conversation format_other now
      (record conv_id (VStr title) (chat l ++ bad :: rest) timestamp)
    = (Raise e,
       export_header title now ++ concat (map export_section (sent l)))
    /\ exn_type e = lit "AttributeError".
Proof.
  intros Hbad. unfold export_conversation.
  change (get (record conv_id (VStr title) (chat l ++ bad :: rest) timestamp)
              (lit "title") (VStr (lit "Conversation")))
    with (Ok (VStr title)).
  change (get (record conv_id (VStr title) (chat l ++ bad :: rest) timestamp)
              (lit "messages") (VList []))
    with (Ok (VList (chat l ++ bad :: rest))).
  cbn [rbind iterate format_value].
  rewrite write_messages_app, write_messages_chat.
  cbn [write_messages].
  destruct bad as [|b|z|f|s|items|d]; [..|now destruct (Hbad d)];
    cbn [get rbind];
    (eexists; split;
     [unfold export_header; now rewrite <- !app_assoc|reflexivity]).
Qed.

End ExportFacts.

Lemma export_stops_at_non_object_witness :
  exists e,
    export_conversation (fun _ => []) (lit "2024-01-01 00:00")
      (record (lit "c1") (VStr (lit "t"))
              (chat [(lit "user", lit "hi")] ++ VNone :: [])
              (lit "2024-01-01T00:00:00"))
    = (Raise e,
       export_header (lit "t") (lit "2024-01-01 00:00")
       ++ concat (map export_section (sent [(lit "user", lit "hi")])))
    /\ exn_type e = lit "AttributeError".
Proof.
  apply (export_stops_at_non_object (fun _ => []) (lit "2024-01-01 00:00")
           (lit "c1") (lit "t") [(lit "user", lit "hi")] VNone []
           (lit "2024-01-01T00:00:00")).
  discriminate.
Defined.

(** ** Loading a conversation into the chat *)

Section LoadToChatFacts.

Variable other_messages : value -> res unit * session.



End LoadToChatFacts.

